(** * Waveform cache, trim/merge engine and display reducer

    A shallow embedding of [gui/waveform_handler.py] (class
    [WaveformHandler]: [getItem], [processStream], [getWaveform],
    [loadGaps], [loadFiles], [getPreview]) together with the two value
    operations of [obspy.core.Trace] that the handler and the test-suite
    [obspy/core/tests/test_trace.py] exercise ([trim] and [__add__]).

    Conventions.
    - Python floats (timestamps, sampling rates, sample values) are
      rationals [Q]; float rounding is not modelled, and neither is the
      wrap-around of an integer dtype: the arithmetic on samples is
      exact. The text [str] writes for a float into a file name is
      modelled, as the value [float] reads back from it.
    - A numpy array, plain or masked, is a [list (option Q)]; [None] is a
      masked position.
    - The station directory of the cache is an association list from file
      names to the pickled streams; its order is the order of
      [os.listdir]. It holds the files a request can read: names of the
      form [head--float--float--cache] (or without the suffix) whose
      head has no separator, each with a stream that unpickles. A
      listing with a cache file whose bounds do not read as floats, or
      whose content does not unpickle, is outside the model, and so is a
      merge that raises.
    - Effects (directory, handler dictionary, calls to collaborators) are
      threaded through a state-and-exception monad whose state survives a
      raised exception, so the trace of calls made before a failure stays
      observable. *)

From Stdlib Require Import QArith Qround Qabs Lqa ZArith Lia Ascii String List Bool
  Arith.
Import ListNotations.

Local Open Scope Q_scope.

(* ================================================================== *)
(** * Part I. Definitions *)
(* ================================================================== *)

(** ** Rational helpers *)

Definition Qlt_bool (x y : Q) : bool := negb (Qle_bool y x).

(** Modelled from the spec: the rounding of section 4.1 (the trim code
    of [obspy/core/trace.py] is not among the sources). Nearest
    integer, ties away from zero. *)
Definition round_away (q : Q) : Z :=
  if Qle_bool 0 q then Qfloor (q + (1 # 2)) else Qceiling (q - (1 # 2)).

(** Modelled from the spec: the 1e-7 tolerance of section 4.1; a value
    re-read at seven decimals. *)
Definition snap7 (q : Q) : Q :=
  inject_Z (round_away (q * inject_Z 10000000)) / inject_Z 10000000.

(** ** SampleSeries ([obspy.core.Trace]) *)

(** The dtype tag of a series; the numpy dtypes the handler and the
    test-suite name. *)
Inductive dtype := Int16 | Int32 | Int64 | Float32 | Float64.

Definition dtype_eqb (a b : dtype) : bool :=
  match a, b with
  | Int16, Int16 | Int32, Int32 | Int64, Int64
  | Float32, Float32 | Float64, Float64 => true
  | _, _ => false
  end.

(** Modelled from the spec: the SampleSeries of section 3; the class
    [Trace] of [obspy/core/trace.py] is not among the sources. The
    fields are those of [tr.stats] and [tr.data] that the handler and the
    tests read; [npts] and [endtime] are derived, which is the invariant
    of section 3. *)
Record Trace := mkTrace {
  network : string;
  station : string;
  location : string;
  channel : string;
  starttime : Q;
  sampling_rate : Q;
  data_dtype : dtype;
  data : list (option Q);
  history : list string
}.

Definition npts (tr : Trace) : nat := length (data tr).

(** [stats.endtime]: derived from start, sample count and rate. *)
Definition endtime (tr : Trace) : Q :=
  match npts tr with
  | O => starttime tr
  | S n => starttime tr + inject_Z (Z.of_nat n) / sampling_rate tr
  end.

(** Modelled from the spec: the invariant of section 3 that is not
    true by construction. *)
Definition valid (tr : Trace) : Prop := 0 < sampling_rate tr.

(** Whether an array has a masked position: a series is plain exactly
    when its data has none. *)
Definition is_masked (l : list (option Q)) : bool :=
  existsb (fun c => match c with None => true | Some _ => false end) l.

Definition set_data (tr : Trace) (t0 : Q) (d : list (option Q)) : Trace :=
  mkTrace (network tr) (station tr) (location tr) (channel tr)
          t0 (sampling_rate tr) (data_dtype tr) d (history tr).

(** [np.require(tr.data, 'float32')] *)
Definition require_float32 (tr : Trace) : Trace :=
  mkTrace (network tr) (station tr) (location tr) (channel tr)
          (starttime tr) (sampling_rate tr) Float32 (data tr) (history tr).

(** A [Stream] is the list of its traces; [+=] extends it, [not stream]
    tests for the empty list, [stream[0]] raises [IndexError] on it. *)
Definition Stream := list Trace.

(** ** Trim engine ([Trace.trim]) *)

(** A trim bound is a relative offset in seconds or an absolute
    timestamp; the constructor, not the magnitude, says which. *)
Inductive timearg := Rel (d : Q) | Abs (t : Q).

(** Modelled from the spec: the sample delta of section 4.1, from the
    distance in samples [dq] of two instants: nearest sample (ties away
    from zero, read at seven decimals) or floor. *)
Definition sample_delta (nearestSample : bool) (dq : Q) : Z :=
  if nearestSample then round_away (snap7 dq) else Qfloor (snap7 dq).

Definition masked_filler (n : nat) : list (option Q) := repeat None n.

(** Modelled from the spec: [Trace._ltrim] of [obspy/core/trace.py],
    which is not among the sources (section 4.1, leftTrim). *)
Definition leftTrim (t : timearg) (nearestSample pad : bool) (s : Trace)
  : Trace :=
  let target := match t with
                | Rel d => starttime s + d
                | Abs a => a
                end in
  let delta :=
    sample_delta nearestSample ((target - starttime s) * sampling_rate s) in
  let moved := starttime s + inject_Z delta / sampling_rate s in
  if (delta <? 0)%Z then
    if pad
    then set_data s moved (masked_filler (Z.to_nat (- delta)) ++ data s)
    else set_data s moved (data s)
  else if (Z.of_nat (npts s) <=? delta)%Z then
    set_data s target []
  else
    set_data s moved (skipn (Z.to_nat delta) (data s)).

(** Modelled from the spec: [Trace._rtrim] of [obspy/core/trace.py],
    which is not among the sources (section 4.1, rightTrim: the mirror of
    leftTrim anchored at the end; the end being derived from the start,
    a bound beyond the end without padding leaves the series as it is). *)
Definition rightTrim (t : timearg) (nearestSample pad : bool) (s : Trace)
  : Trace :=
  let target := match t with
                | Rel d => endtime s - d
                | Abs a => a
                end in
  let delta :=
    sample_delta nearestSample ((endtime s - target) * sampling_rate s) in
  if (delta <? 0)%Z then
    if pad
    then set_data s (starttime s)
                  (data s ++ masked_filler (Z.to_nat (- delta)))
    else s
  else if (Z.of_nat (npts s) <=? delta)%Z then
    set_data s target []
  else
    set_data s (starttime s)
             (firstn (npts s - Z.to_nat delta) (data s)).

(** Modelled from the spec: the computed end of section 4.1 (trim), the
    instant at which [rightTrim] cuts. *)
Definition clipped_end (t : timearg) (nearestSample : bool) (s : Trace) : Q :=
  let target := match t with
                | Rel d => endtime s - d
                | Abs a => a
                end in
  endtime s
  - inject_Z (sample_delta nearestSample
                ((endtime s - target) * sampling_rate s))
    / sampling_rate s.

(** Modelled from the spec: [Trace.trim] of [obspy/core/trace.py], which
    is not among the sources (section 4.1, trim: leftTrim then rightTrim,
    collapsing to no sample at the clipped start when the clipped start
    lies after the clipped end). *)
Definition trim (t0 t1 : timearg) (pad nearestSample : bool) (s : Trace)
  : Trace :=
  let l := leftTrim t0 nearestSample pad s in
  if Qlt_bool (clipped_end t1 nearestSample l) (starttime l)
  then set_data l (starttime l) []
  else rightTrim t1 nearestSample pad l.

(** Modelled from the spec: every trim returns a newly owned series
    (section 4.1, last item). Series live in an object store; a trim
    reads the object at an address and allocates its result at a fresh
    one. *)
Definition heap := list Trace.

Definition alloc (h : heap) (s : Trace) : heap * nat :=
  (h ++ [s], List.length h).

Definition trim_at (h : heap) (a : nat) (t0 t1 : timearg)
           (pad nearestSample : bool) : option (heap * nat) :=
  match nth_error h a with
  | Some s => Some (alloc h (trim t0 t1 pad nearestSample s))
  | None => None
  end.

(** Modelled from the spec: [Stream.trim(starttime, endtime, pad)] of
    [obspy/core/stream.py], which is not among the sources; every trace
    is trimmed (section 4.1) to the two absolute instants, to the nearest
    sample. *)
Definition Stream_trim (t0 t1 : Q) (pad : bool) (st : Stream) : Stream :=
  map (trim (Abs t0) (Abs t1) pad true) st.

(** ** Merge engine ([Trace.__add__]) *)

Inductive merge_error := IncompatibleSeries.

(** Modelled from the spec: the contract of section 4.2, identical
    channel key, sampling rate and dtype. *)
Definition same_id (a b : Trace) : bool :=
  String.eqb (network a) (network b)
  && String.eqb (station a) (station b)
  && String.eqb (location a) (location b)
  && String.eqb (channel a) (channel b).

Definition compatible (a b : Trace) : bool :=
  same_id a b
  && Qeq_bool (sampling_rate a) (sampling_rate b)
  && dtype_eqb (data_dtype a) (data_dtype b).

(** Modelled from the spec: the element-wise comparison of step 5.
    Two masked cells compare equal, a masked and a plain one differ. *)
Definition cell_eqb (x y : option Q) : bool :=
  match x, y with
  | Some a, Some b => Qeq_bool a b
  | None, None => true
  | _, _ => false
  end.

Fixpoint cells_eqb (l r : list (option Q)) : bool :=
  match l, r with
  | [], [] => true
  | x :: l', y :: r' => cell_eqb x y && cells_eqb l' r'
  | _, _ => false
  end.

(** Modelled from the spec: step 1 of section 4.2, the earlier series
    is the left one. *)
Definition earlier (a b : Trace) : Trace :=
  if Qle_bool (starttime a) (starttime b) then a else b.

Definition later (a b : Trace) : Trace :=
  if Qle_bool (starttime a) (starttime b) then b else a.

(** Modelled from the spec: step 2, the index in the left series of the
    first sample of the right one, with the rounding of the trim
    engine. *)
Definition sample_offset (l r : Trace) : nat :=
  Z.to_nat (sample_delta true
              ((starttime r - starttime l) * sampling_rate l)).

(** Modelled from the spec: step 3, the four layouts. The right series
    is contiguous when it starts one sample after the last sample of the
    left one. *)
Inductive layout :=
| Gap (gapSamples : nat)
| Contiguous
| Overlap (shared : nat)
| Containment.

Definition classify (nL nR d : nat) : layout :=
  if nL <? d then Gap (d - nL)
  else if nL =? d then Contiguous
  else if nL <? d + nR then Overlap (nL - d)
  else Containment.

(** The cells [d .. d+n) of an array. *)
Definition region (l : list (option Q)) (d n : nat) : list (option Q) :=
  firstn n (skipn d l).

(** Modelled from the spec: steps 4 and 5. *)
Definition merged_cells (l r : list (option Q)) (d : nat)
  : list (option Q) :=
  match classify (List.length l) (List.length r) d with
  | Gap g => l ++ masked_filler g ++ r
  | Contiguous => l ++ r
  | Overlap n =>
      if cells_eqb (region l d n) (firstn n r)
      then firstn d l ++ region l d n ++ skipn n r
      else firstn d l ++ masked_filler n ++ skipn n r
  | Containment =>
      let n := List.length r in
      if cells_eqb (region l d n) r
      then l
      else firstn d l ++ masked_filler n ++ skipn (d + n) l
  end.

(** Modelled from the spec: [Trace.__add__] of [obspy/core/trace.py],
    which is not among the sources (section 4.2: compatibility check,
    then steps 1 to 6; the result is plain exactly when none of its
    cells is masked, see [is_masked]). *)
Definition add (a b : Trace) : merge_error + Trace :=
  if compatible a b then
    let l := earlier a b in
    let r := later a b in
    inr (set_data l (starttime l)
                  (merged_cells (data l) (data r) (sample_offset l r)))
  else inl IncompatibleSeries.

(** ** The handler's surroundings *)

(** A name of the station directory, read the way [getWaveform] reads
    it: [f_head] is [file.split('--')[0]], [f_t0] and [f_t1] are
    [float(file.split('--')[1])] and [float(file.split('--')[2])], and
    [f_cache] tells whether [file[-7:] == '--cache']. Names are taken to
    carry two readable timestamps; the text of a timestamp is the
    fraction as it stands, so that [1 # 2] and [2 # 4] name two files
    with the same bound. *)
Record fname := mkName {
  f_head : string;
  f_t0 : Q;
  f_t1 : Q;
  f_cache : bool
}.

Definition Q_eqb (x y : Q) : bool :=
  Z.eqb (Qnum x) (Qnum y) && Pos.eqb (Qden x) (Qden y).

(** Two names are the same file when they are the same text. *)
Definition fname_eqb (a b : fname) : bool :=
  String.eqb (f_head a) (f_head b)
  && Q_eqb (f_t0 a) (f_t0 b) && Q_eqb (f_t1 a) (f_t1 b)
  && Bool.eqb (f_cache a) (f_cache b).

Definition directory := list (fname * Stream).

(** Calls that leave the handler. *)
Inductive event :=
| EvFetch (t0 t1 : option Q)      (* env.seishub.getPreview(..., t0, t1) *)
| EvLoad (f : fname)              (* open(f, 'rb'); pickle.load *)
| EvRemove (f : fname)            (* os.remove(f) *)
| EvWrite (f : fname)             (* open(f, 'wb'); pickle.dump; close *)
| EvSetError.                     (* win.status_bar.setError(msg) *)

(** A float of the display array: a number, or numpy's [nan]. *)
Inductive fvalue := Num (q : Q) | NaN.

(** What [processStream] returns: the one trace of the trimmed copy,
    and the array it stores into [stream[0].data]. *)
Record Reduced := mkReduced {
  red_trace : Trace;
  red_data : list fvalue
}.

(** One value of [self.waveforms]: ['org_stream'] (Python's [None] is
    [None]), ['empty'], and ['minmax_stream'] when the key is set. *)
Record entry := mkEntry {
  org_stream : option Stream;
  empty : bool;
  minmax_stream : option Reduced
}.

Record world := mkWorld {
  w_dir : directory;
  w_waveforms : list (string * entry);
  w_log : list event
}.

(** [self.env]: the ambient window and settings, and the SeisHub client. *)
Record Env := mkEnv {
  env_starttime : Q;
  env_endtime : Q;
  env_buffer : Q;
  env_detail : nat;
  env_log_scale : option Q;
  env_debug : bool;
  seishub_getPreview :
    string -> string -> string -> string -> option Q -> option Q -> Stream
}.

(** What the handler takes from [obspy.core] and from Python without
    defining it: [Stream.merge(method=1, interpolation_samples=-1)] and
    the value read back by [float] from the text [str] wrote into a file
    name. *)
Record Core := mkCore {
  Stream_merge : Stream -> Stream;
  float_str : Q -> Q
}.

(** ** The state-and-exception monad *)

Inductive exn :=
| IndexError | NameError | AttributeError | ValueError
| ZeroDivisionError | TypeError | OSError | IOError.

Inductive result (A : Type) :=
| Ok (a : A)
| Raise (e : exn).
Arguments Ok {A} a.
Arguments Raise {A} e.

Definition M (A : Type) : Type := world -> result A * world.

Definition ret {A} (a : A) : M A := fun w => (Ok a, w).

Definition raise {A} (e : exn) : M A := fun w => (Raise e, w).

Definition bind {A B} (m : M A) (k : A -> M B) : M B :=
  fun w => match m w with
           | (Ok a, w') => k a w'
           | (Raise e, w') => (Raise e, w')
           end.

Declare Scope handler_scope.
Delimit Scope handler_scope with handler.
Notation "x <- m ;; k" := (bind m (fun x => k))
  (at level 61, m at next level, right associativity) : handler_scope.
Notation "m ;;; k" := (bind m (fun _ => k))
  (at level 61, right associativity) : handler_scope.

Definition emit (ev : event) : M unit :=
  fun w => (Ok tt, mkWorld (w_dir w) (w_waveforms w) (w_log w ++ [ev])).

Definition get_dir : M directory := fun w => (Ok (w_dir w), w).

Definition put_dir (d : directory) : M unit :=
  fun w => (Ok tt, mkWorld d (w_waveforms w) (w_log w)).

(** [for x in xs: body(x)] *)
Fixpoint for_each {A} (xs : list A) (body : A -> M unit) : M unit :=
  match xs with
  | [] => ret tt
  | x :: xs' => bind (body x) (fun _ => for_each xs' body)
  end.

(** ** Directory operations *)

Fixpoint lookup_file (f : fname) (d : directory) : option Stream :=
  match d with
  | [] => None
  | (g, s) :: d' => if fname_eqb f g then Some s else lookup_file f d'
  end.

Fixpoint delete_file (f : fname) (d : directory) : directory :=
  match d with
  | [] => []
  | (g, s) :: d' => if fname_eqb f g then d' else (g, s) :: delete_file f d'
  end.

Fixpoint store_file (f : fname) (s : Stream) (d : directory) : directory :=
  match d with
  | [] => [(f, s)]
  | (g, s') :: d' =>
      if fname_eqb f g then (g, s) :: d' else (g, s') :: store_file f s d'
  end.

(** [file = open(f, 'rb'); pickle.load(file); file.close()] *)
Definition load_pickle (f : fname) : M Stream :=
  bind (emit (EvLoad f)) (fun _ =>
  bind get_dir (fun d =>
  match lookup_file f d with
  | Some s => ret s
  | None => raise IOError
  end)).

(** [os.remove(f)] *)
Definition os_remove (f : fname) : M unit :=
  bind (emit (EvRemove f)) (fun _ =>
  bind get_dir (fun d =>
  match lookup_file f d with
  | Some _ => put_dir (delete_file f d)
  | None => raise OSError
  end)).

(** [file = open(f, 'wb'); pickle.dump(stream, file, 2); file.close()] *)
Definition dump_pickle (f : fname) (s : Stream) : M unit :=
  bind (emit (EvWrite f)) (fun _ =>
  bind get_dir (fun d => put_dir (store_file f s d))).

(** ** Visualization reducer ([WaveformHandler.processStream]) *)

Definition valid_cells (row : list (option Q)) : list Q :=
  flat_map (fun c => match c with Some q => [q] | None => [] end) row.

Definition qmax (x y : Q) : Q := if Qle_bool x y then y else x.
Definition qmin (x y : Q) : Q := if Qle_bool x y then x else y.

(** [row.max()] over the unmasked cells; masked when there is none. *)
Definition cells_max (row : list (option Q)) : option Q :=
  match valid_cells row with
  | [] => None
  | x :: xs => Some (fold_left qmax xs x)
  end.

(** [row.ptp()]: peak to peak over the unmasked cells. *)
Definition cells_ptp (row : list (option Q)) : option Q :=
  match valid_cells row with
  | [] => None
  | x :: xs => Some (fold_left qmax xs x - fold_left qmin xs x)
  end.

(** [data[:pixel * per_pixel].reshape(pixel, per_pixel)] *)
Fixpoint reshape (pixel per_pixel : nat) (l : list (option Q))
  : list (list (option Q)) :=
  match pixel with
  | O => []
  | S k => firstn per_pixel l :: reshape k per_pixel (skipn per_pixel l)
  end.

(** [if ptp[-1] < last_pixel: ptp[-1] = last_pixel]; a comparison with
    a masked value is not true. *)
Definition fold_last_pixel (ptp : list (option Q)) (last_pixel : option Q)
  : list (option Q) :=
  match last ptp None, last_pixel with
  | Some a, Some b =>
      if Qlt_bool a b then removelast ptp ++ [Some b] else ptp
  | _, _ => ptp
  end.

(** [ptp *= 100.0 / ptp.max()], in exact arithmetic: with no unmasked
    value everything stays masked; a maximum of zero makes the factor
    infinite and every unmasked (zero) value [nan]. *)
Definition rescale (ptp : list (option Q)) : list (option fvalue) :=
  match cells_max ptp with
  | None => map (fun _ => None) ptp
  | Some m =>
      if Qeq_bool m 0
      then map (option_map (fun _ => NaN)) ptp
      else map (option_map (fun v => Num (v * (100 / m)))) ptp
  end.

(** [ptp.fill_value = 0.0; ptp = ptp.filled()] *)
Definition filled (ptp : list (option fvalue)) : list fvalue :=
  map (fun c => match c with Some v => v | None => Num 0 end) ptp.

Definition clamp (v : fvalue) : fvalue :=
  match v with
  | Num q => if Qlt_bool 0 q && Qlt_bool q (1 # 2) then Num (1 # 2) else Num q
  | NaN => NaN
  end.

(** [if self.env.log_scale:] *)
Definition truthy (x : option Q) : bool :=
  match x with
  | Some q => negb (Qeq_bool q 0)
  | None => false
  end.

(** The peak-to-peak array before any scaling (lines 65 to 74), in
    exact arithmetic: numpy takes the differences in the dtype of the
    array, where an integer difference can wrap and a float one is
    rounded. *)
Definition bucket_ptp (pixel : nat) (cells : list (option Q))
  : list (option Q) :=
  let per_pixel := (List.length cells / pixel)%nat in
  let ptp := map cells_ptp
                 (reshape pixel per_pixel (firstn (pixel * per_pixel) cells)) in
  let last_pixel := skipn (pixel * per_pixel) cells in
  match last_pixel with
  | [] => ptp
  | _ :: _ => fold_last_pixel ptp (cells_ptp last_pixel)
  end.

Definition processStream (e : Env) (stream : Stream) : result Reduced :=
  let pixel := env_detail e in
  let stream := Stream_trim (env_starttime e) (env_endtime e) true stream in
  match stream with
  | [] => Raise IndexError                      (* stream[0] *)
  | tr :: rest =>
      match rest with
      | _ :: _ => Raise TypeError               (* the bare [raise] *)
      | [] =>
          if (pixel =? 0)%nat then Raise ZeroDivisionError
          else if (List.length (data tr) / pixel =? 0)%nat
          then Raise ValueError                 (* ptp of empty rows *)
          else
            let ptp := bucket_ptp pixel (data tr) in
            if truthy (env_log_scale e)
            then Raise AttributeError           (* self.ptp *)
            else Ok (mkReduced tr (map clamp (filled (rescale ptp))))
      end
  end.

(** ** Cache assembler ([WaveformHandler.getWaveform] and helpers) *)

Section Handler.

Variable C : Core.
Variable e : Env.

Local Open Scope handler_scope.

(** ['%s[%s]' % (channel, location)]; channel and location codes are
    taken not to contain the separator [--]. *)
Definition file_key (cha loc : string) : string :=
  (cha ++ "[" ++ loc ++ "]")%string.

(** The name under which a stream is pickled:
    ['%s[%s]--%s--%s--cache'] of its first trace's bounds. *)
Definition cache_name (cha loc : string) (tr : Trace) : fname :=
  mkName (file_key cha loc)
         (float_str C (starttime tr)) (float_str C (endtime tr)) true.

(** [self.env.seishub.getPreview(...)] *)
Definition fetch (net sta loc cha : string) (t0 t1 : option Q) : M Stream :=
  emit (EvFetch t0 t1) ;;;
  ret (seishub_getPreview e net sta loc cha t0 t1).

(** [stream[0].data = np.require(stream[0].data, 'float32')] *)
Definition head_float32 (st : Stream) : Stream :=
  match st with
  | [] => []
  | tr :: rest => require_float32 tr :: rest
  end.

Definition getPreview (net sta loc cha : string) (t0 t1 : option Q)
  : M (option Stream) :=
  stream <- fetch net sta loc cha t0 t1 ;;
  match head_float32 stream with
  | [] => ret None
  | tr :: rest =>
      let stream := tr :: rest in
      if (200 <? npts tr)%nat
      then dump_pickle (cache_name cha loc tr) stream ;;; ret (Some stream)
      else ret (Some stream)
  end.

(** The loop of [loadGaps]: one fetch per frame, empty answers dropped. *)
Fixpoint fetch_frames (net sta loc cha : string) (frames : list (Q * Q))
  : M (list Stream) :=
  match frames with
  | [] => ret []
  | frame :: frames' =>
      temp <- fetch net sta loc cha (Some (fst frame)) (Some (snd frame)) ;;
      streams <- fetch_frames net sta loc cha frames' ;;
      match temp with
      | [] => ret streams
      | _ :: _ => ret (head_float32 temp :: streams)
      end
  end.

(** [Stream] is not bound in the module ([UTCDateTime] is the only name
    imported from [obspy.core]), so the [else] branch raises. *)
Definition loadGaps (frames : list (Q * Q)) (net sta loc cha : string)
  : M Stream :=
  streams <- fetch_frames net sta loc cha frames ;;
  match streams with
  | [] => raise NameError
  | stream :: others => ret (stream ++ concat others)%list
  end.

Fixpoint load_all (times : list fname) : M (list Stream) :=
  match times with
  | [] => ret []
  | t :: times' =>
      s <- load_pickle t ;;
      streams <- load_all times' ;;
      ret (s :: streams)
  end.

Definition loadFiles (times : list fname) : M Stream :=
  streams <- load_all times ;;
  match streams with
  | [] => raise IndexError
  | stream :: others => ret (stream ++ concat others)%list
  end.

(** [file[-7:] == '--cache' and file.split('--')[0] == '%s[%s]' % ...] *)
Definition wanted (cha loc : string) (f : fname) : bool :=
  f_cache f && String.eqb (f_head f) (file_key cha loc).

(** [time[0] <= endtime and time[1] >= starttime] *)
Definition intersects (f : fname) : bool :=
  Qle_bool (f_t0 f) (env_endtime e) && Qle_bool (env_starttime e) (f_t1 f).

(** Lines 124 to 135, for a non-empty [times] whose first element is
    [first]. *)
Definition missing_time_frames (first : fname) (times : list fname)
  : list (Q * Q) :=
  let lastf := last times first in
  ((if Qlt_bool (env_starttime e) (f_t0 first)
    then [(env_starttime e, f_t0 first + env_buffer e)] else [])
   ++ map (fun _i => (f_t1 (nth _i times first) - env_buffer e,
                      f_t0 (nth (_i + 1) times first) + env_buffer e))
          (seq 0 (List.length times - 1))
   ++ (if Qlt_bool (f_t1 lastf) (env_endtime e)
       then [(f_t1 lastf - env_buffer e, env_endtime e)] else []))%list.

(** Lines 155 to 169: merge, and past 200 samples replace the loaded
    files by one pickle of the result. *)
Definition merge_and_pickle (cha loc : string) (times : list fname)
           (stream : Stream) : M (option Stream) :=
  let stream := Stream_merge C stream in
  match stream with
  | [] => raise IndexError
  | tr :: _ =>
      if (200 <? npts tr)%nat
      then
        for_each times os_remove ;;;
        dump_pickle (cache_name cha loc tr) stream ;;;
        ret (Some stream)
      else ret (Some stream)
  end.

(** The directories of the network and of the station are created when
    absent; [w_dir] is the listing of the station directory. The main
    window [self.win] is taken to be attached to the handler. *)
Definition getWaveform (net sta loc cha id : string) : M (option Stream) :=
  d <- get_dir ;;
  let files := filter (wanted cha loc) (map fst d) in
  if (List.length files =? 0)%nat
  then getPreview net sta loc cha None None
  else
    let times := filter intersects files in
    match times with
    | [] => raise IndexError                     (* times[0][0] *)
    | first :: _ =>
        let missing := missing_time_frames first times in
        stream <- loadFiles times ;;
        match missing with
        | _ :: _ =>
            gaps <- loadGaps missing net sta loc cha ;;
            match (stream ++ gaps)%list with
            | [] => emit EvSetError ;;; ret None
            | stream' => merge_and_pickle cha loc times stream'
            end
        | [] => merge_and_pickle cha loc times stream
        end
    end.

(** [self.waveforms[id] = ...] *)
Fixpoint dict_set (id : string) (v : entry) (d : list (string * entry))
  : list (string * entry) :=
  match d with
  | [] => [(id, v)]
  | (k, v') :: d' =>
      if String.eqb id k then (k, v) :: d' else (k, v') :: dict_set id v d'
  end.

Definition set_waveform (id : string) (v : entry) : M unit :=
  fun w => (Ok tt, mkWorld (w_dir w) (dict_set id v (w_waveforms w)) (w_log w)).

(** ['%s.%s.%s.%s' % (network, station, location, channel)] *)
Definition waveform_id (net sta loc cha : string) : string :=
  (net ++ "." ++ sta ++ "." ++ loc ++ "." ++ cha)%string.

(** The stream found in [self.waveforms] at line 37 is overwritten at
    line 39: the waveform is requested on every call. *)
Definition getItem (net sta loc cha : string) : M entry :=
  let id := waveform_id net sta loc cha in
  stream <- getWaveform net sta loc cha id ;;
  match stream with
  | None | Some [] =>
      let v := mkEntry stream true None in
      set_waveform id v ;;; ret v
  | Some s =>
      set_waveform id (mkEntry stream false None) ;;;
      match processStream e s with
      | Ok r =>
          let v := mkEntry stream false (Some r) in
          set_waveform id v ;;; ret v
      | Raise x => raise x
      end
  end.

End Handler.

(** A run from a directory, with an empty dictionary and an empty trace. *)
Definition start (d : directory) : world := mkWorld d [] [].

Definition fetches (l : list event) : list event :=
  filter (fun ev => match ev with EvFetch _ _ => true | _ => false end) l.

(** ** Vocabulary of the properties *)

Section Vocabulary.

Variable C : Core.
Variable e : Env.




Definition is_fetch (ev : event) : Prop :=
  match ev with EvFetch _ _ => True | _ => False end.

Definition is_load (ev : event) : Prop :=
  match ev with EvLoad _ => True | _ => False end.

(** Events that change the station directory. *)
Definition is_mutation (ev : event) : Prop :=
  match ev with EvRemove _ | EvWrite _ => True | _ => False end.

(** No event of the list is the no-data report. *)
Definition silent (l : list event) : Prop :=
  Forall (fun ev => ev <> EvSetError) l.

(** The files [getWaveform] loads for a request, and the rest of the
    directory. *)
Definition loaded_for (cha loc : string) (f : fname) : bool :=
  wanted cha loc f && intersects e f.

Definition kept (cha loc : string) (d : directory) : directory :=
  filter (fun x => negb (loaded_for cha loc (fst x))) d.

(** The branch of [getWaveform] taken when cached files intersect the
    window. *)
Definition assemble (net sta loc cha : string) (first : fname)
           (times : list fname) : M (option Stream) :=
  bind (loadFiles times) (fun stream =>
    match missing_time_frames e first times with
    | _ :: _ =>
        bind (loadGaps e (missing_time_frames e first times) net sta loc cha)
             (fun gaps =>
                match (stream ++ gaps)%list with
                | [] => bind (emit EvSetError) (fun _ => ret None)
                | stream' => merge_and_pickle C cha loc times stream'
                end)
    | [] => merge_and_pickle C cha loc times stream
    end).

End Vocabulary.

(** Persist, then delete, as a property of the trace of calls: every
    write comes before every removal. *)
Definition written_before_removed (log : list event) : Prop :=
  forall i j f g,
    nth_error log i = Some (EvRemove f) ->
    nth_error log j = Some (EvWrite g) ->
    (j < i)%nat.

Definition all_masked (row : list (option Q)) : Prop :=
  Forall (fun c => c = None) row.

(** Equality of series: every field equal, times and rate as numbers. *)
Definition same_series (r s : Trace) : Prop :=
  network r = network s /\ station r = station s
  /\ location r = location s /\ channel r = channel s
  /\ starttime r == starttime s
  /\ sampling_rate r == sampling_rate s
  /\ data_dtype r = data_dtype s
  /\ data r = data s
  /\ history r = history s.

Definition trace_id (t : Trace) : string * string * string * string :=
  (network t, station t, location t, channel t).

(** Two cells hold the same sample. *)
Definition same_cell (x y : option Q) : Prop :=
  match x, y with
  | Some p, Some q => p == q
  | None, None => True
  | _, _ => False
  end.

(** ** Concrete worlds and series *)

(** The empty code: a location left blank, a trace without identity. *)
Definition blank : string := EmptyString.

(** Series of the test-suite: no identity, one sample per second. *)
Definition cells_of (zs : list Z) : list (option Q) :=
  map (fun z => Some (inject_Z z)) zs.

Definition series (t0 : Q) (dt : dtype) (cells : list (option Q)) : Trace :=
  mkTrace blank blank blank blank t0 1 dt cells [].

Definition result_cells (x : merge_error + Trace) : list (option Q) :=
  match x with
  | inr r => data r
  | inl _ => []
  end.

(** Streams of one trace are their own merge; file names carry the
    bounds in lowest terms. *)
Definition core0 : Core := mkCore (fun s => s) Qred.

Definition zeros (n : nat) : list (option Q) := repeat (Some 0) n.

Definition ones (n : nat) : list (option Q) := repeat (Some 1) n.

Definition ehz (t0 : Q) (cells : list (option Q)) : Trace :=
  mkTrace "BW" "FUR" blank "EHZ" t0 1 Float32 cells [].

Definition no_data : string -> string -> string -> string ->
                     option Q -> option Q -> Stream :=
  fun _ _ _ _ _ _ => [].

(** One cached descriptor that covers the window [0, 300]. *)
Definition env_full : Env := mkEnv 0 300 1 100 None false no_data.

Definition dir_full : directory :=
  [(mkName "EHZ[]" 0 300 true, [ehz 0 (zeros 301)])].

(** A cached descriptor that holds a stream without traces, a window
    that extends past it, and a fetch collaborator that has nothing. *)
Definition env_nodata : Env := mkEnv 0 20 1 100 None false no_data.

Definition dir_nodata : directory := [(mkName "EHZ[]" 0 10 true, [])].

(** Nothing cached, a fetch collaborator that answers with 301 samples
    from 0 on, and the window [0, 300]. *)
Definition full_answer : string -> string -> string -> string ->
                         option Q -> option Q -> Stream :=
  fun _ _ _ _ _ _ => [ehz 0 (zeros 301)].

Definition env_first : Env := mkEnv 0 300 1 100 None false full_answer.

Definition env_log : Env := mkEnv 0 11 1 4 (Some 10) false no_data.

Definition env_lin : Env := mkEnv 0 11 1 4 None false no_data.

(** Buckets of three samples: a burst, a faint wiggle, a flat line; the
    fourth bucket is the padding up to the window end. *)
Definition faint : Stream :=
  [ehz 0 (cells_of [0; 1000; 0; 7; 8; 7; 3; 3; 3]%Z)].

(** ** Further vocabulary: the handler's dictionary and fetches *)

(** [self.waveforms[id]]; [None] when [id not in self.waveforms]. *)
Fixpoint dict_get (id : string) (d : list (string * entry)) : option entry :=
  match d with
  | [] => None
  | (k, v) :: d' => if String.eqb id k then Some v else dict_get id d'
  end.

(** Lines 36 to 39 as they are written: when the id is in
    [self.waveforms] the stream held there is read into [stream], and
    [stream] is then assigned the result of [getWaveform]. *)
Definition getItem_as_written (C : Core) (e : Env)
           (net sta loc cha : string) : M entry :=
  bind (fun w =>
          (Ok (option_map org_stream
                          (dict_get (waveform_id net sta loc cha)
                                    (w_waveforms w))), w))
       (fun _held => getItem C e net sta loc cha).

(** The same world with another dictionary. *)
Definition with_dict (w : world) (wf : list (string * entry)) : world :=
  mkWorld (w_dir w) wf (w_log w).

(** A computation that neither reads nor writes [self.waveforms]. *)
Definition dict_free {A} (m : M A) : Prop :=
  forall w wf,
    m (with_dict w wf) = (fst (m w), with_dict (snd (m w)) wf).

(** The call [loadGaps] makes for a frame. *)
Definition frame_event (fr : Q * Q) : event :=
  EvFetch (Some (fst fr)) (Some (snd fr)).

(** The pickle stored under a name of the listing. *)
Definition stored (d : directory) (f : fname) : Stream :=
  match lookup_file f d with
  | Some s => s
  | None => []
  end.

Section FurtherVocabulary.

Variable e : Env.

(** The list [streams] that the loop of [loadGaps] builds. *)
Fixpoint gap_streams (net sta loc cha : string) (frames : list (Q * Q))
  : list Stream :=
  match frames with
  | [] => []
  | fr :: frames' =>
      match seishub_getPreview e net sta loc cha
                               (Some (fst fr)) (Some (snd fr)) with
      | [] => gap_streams net sta loc cha frames'
      | tr :: rest =>
          (require_float32 tr :: rest) :: gap_streams net sta loc cha frames'
      end
  end.

End FurtherVocabulary.

(** Results of [getWaveform] that leave the directory as it was. *)
Definition quiet_result (r : result (option Stream)) : Prop :=
  r = Ok None
  \/ (exists tr rest, r = Ok (Some (tr :: rest)) /\ (npts tr <= 200)%nat)
  \/ r = Raise IndexError
  \/ r = Raise NameError.

(** A partly cached window: the descriptor [0, 300] and the window
    [0, 400], with a fetch collaborator that has nothing. *)
Definition env_partial : Env := mkEnv 0 400 1 100 None false no_data.

(** A short answer: 3 samples from 0 on, whatever is asked. *)
Definition short_answer : string -> string -> string -> string ->
                          option Q -> option Q -> Stream :=
  fun _ _ _ _ _ _ => [ehz 0 (zeros 3)].

Definition env_short : Env := mkEnv 0 2 1 3 None false short_answer.

Definition env_short_log : Env :=
  mkEnv 0 2 1 3 (Some 10) false short_answer.

(** Two descriptors one after the other, and a file of another channel. *)
Definition dir_two : directory :=
  [(mkName "EHZ[]" 0 100 true, [ehz 0 (zeros 101)]);
   (mkName "EHN[]" 0 300 true,
    [mkTrace "BW" "FUR" blank "EHN" 0 1 Float32 (zeros 301) []]);
   (mkName "EHZ[]" 101 300 true, [ehz 101 (zeros 200)])].

Definition env_two : Env := mkEnv 0 300 1 100 None false no_data.

(** ** The text of a float in a file name *)

(** Rounding to the nearest integer, ties to the even one. *)
Definition round_half_even (q : Q) : Z :=
  let f := Qfloor q in
  let r := q - inject_Z f in
  if Qlt_bool r (1 # 2) then f
  else if Qlt_bool (1 # 2) r then (f + 1)%Z
  else if Z.even f then f else (f + 1)%Z.

(** The number of decimal digits of a positive integer. *)
Definition digits (p : positive) : Z :=
  Z.of_nat (Decimal.nb_digits (Pos.to_uint p)).

(** The decimal exponent of a non-zero [q]: the [k] with
    [10 ^ k <= |q| < 10 ^ (k + 1)]. *)
Definition decimal_exponent (q : Q) : Z :=
  let a := Qabs q in
  if Qle_bool 1 a
  then match Qfloor a with
       | Zpos p => (digits p - 1)%Z
       | _ => 0%Z
       end
  else match (Qceiling (/ a) - 1)%Z with
       | Zpos p => (- digits p)%Z
       | _ => 0%Z
       end.

(** [float(str(q))] in Python 2, the language of the handler ([print]
    statements, [xrange]): [str] of a float is ['%.12g'], twelve
    significant digits. *)
Definition str12 (q : Q) : Q :=
  if Qeq_bool q 0 then q
  else
    let k := (11 - decimal_exponent q)%Z in
    Qred (inject_Z (round_half_even (q * Qpower 10 k)) / Qpower 10 k).

(** A window of five minutes that begins 7 ms after
    2010-01-01T00:00:00 (timestamp 1262304000), nothing cached, and a
    fetch collaborator that answers with 301 samples, one per second,
    from the window start to the window end. *)
Definition ms_trace : Trace := ehz (1262304000007 # 1000) (zeros 301).

Definition ms_answer : string -> string -> string -> string ->
                       option Q -> option Q -> Stream :=
  fun _ _ _ _ _ _ => [ms_trace].

Definition env_ms : Env :=
  mkEnv (1262304000007 # 1000) (1262304300007 # 1000) 1 100 None false
        ms_answer.

(** ** Names as the next listing reads them *)

(** [s.split('--')[0]]: the text before the first separator. *)
Fixpoint split_head (s : string) : string :=
  match s with
  | String "-"%char (String "-"%char _) => EmptyString
  | String c s' => String c (split_head s')
  | EmptyString => EmptyString
  end.

(** A text without the separator. *)
Definition plain (s : string) : Prop := split_head s = s.

(** A name of the directory as lines 105 and 106 read it at the next
    request: the head is cut at the first separator. For a name that
    [cache_name] built from a channel or location code with a [--] in
    it, this is not the head that was written. *)
Definition as_listed (f : fname) : fname :=
  mkName (split_head (f_head f)) (f_t0 f) (f_t1 f) (f_cache f).

(* ================================================================== *)
(** * Part II. Properties *)
(* ================================================================== *)

(** ** Comparisons *)

Lemma Qlt_bool_iff (x y : Q) : Qlt_bool x y = true <-> x < y.
Proof.
  unfold Qlt_bool. rewrite negb_true_iff.
  destruct (Qle_bool y x) eqn:E.
  - apply Qle_bool_iff in E. split; [discriminate | intro H; lra].
  - split; [intros _ | reflexivity].
    destruct (Qlt_le_dec x y) as [H | H]; [exact H |].
    apply Qle_bool_iff in H. congruence.
Qed.

Lemma Qlt_bool_false (x y : Q) : Qlt_bool x y = false <-> y <= x.
Proof.
  unfold Qlt_bool. rewrite negb_false_iff. apply Qle_bool_iff.
Qed.

Lemma Q_eqb_eq (x y : Q) : Q_eqb x y = true <-> x = y.
Proof.
  unfold Q_eqb. rewrite andb_true_iff, Z.eqb_eq, Pos.eqb_eq.
  destruct x, y; simpl; split.
  - intros [-> ->]; reflexivity.
  - intros H; injection H; auto.
Qed.

Lemma fname_eqb_eq (a b : fname) : fname_eqb a b = true <-> a = b.
Proof.
  unfold fname_eqb.
  rewrite !andb_true_iff, String.eqb_eq, !Q_eqb_eq, Bool.eqb_true_iff.
  destruct a, b; simpl; split.
  - intros [[[-> ->] ->] ->]; reflexivity.
  - intros H; injection H; auto.
Qed.

Lemma fname_eqb_refl (a : fname) : fname_eqb a a = true.
Proof. apply fname_eqb_eq; reflexivity. Qed.

(** ** Gaps of a request (C3) *)

Section Gaps.

Variable e : Env.




End Gaps.

(** ** Running the handler *)

Section Runs.

Variable C : Core.
Variable e : Env.

Lemma filter_filter_and {A} (p q : A -> bool) (l : list A) :
  filter p (filter q l) = filter (fun x => q x && p x) l.
Proof.
  induction l as [| x l IH]; simpl; [reflexivity |].
  destruct (q x); simpl; [destruct (p x) |]; rewrite IH; reflexivity.
Qed.

Lemma getWaveform_no_times (net sta loc cha id : string) (w : world) :
  filter (wanted cha loc) (map fst (w_dir w)) <> [] ->
  filter (intersects e) (filter (wanted cha loc) (map fst (w_dir w))) = [] ->
  getWaveform C e net sta loc cha id w = (Raise IndexError, w).
Proof.
  intros Hfiles Htimes.
  unfold getWaveform. unfold bind at 1. unfold get_dir.
  destruct (filter (wanted cha loc) (map fst (w_dir w))) as [| f files] eqn:E;
    [congruence |].
  change (List.length (f :: files) =? 0)%nat with false. cbv iota.
  rewrite Htimes. reflexivity.
Qed.

(** C10. When the station directory holds at least one file of the
    channel but none of them intersects the requested window,
    [getWaveform] fails with [IndexError] on [times[0]]: nothing was
    asked of the fetch collaborator and the directory is untouched. *)
Theorem getWaveform_IndexError_without_intersection
        (net sta loc cha id : string) (d : directory) :
  filter (wanted cha loc) (map fst d) <> [] ->
  filter (intersects e) (filter (wanted cha loc) (map fst d)) = [] ->
  getWaveform C e net sta loc cha id (start d) = (Raise IndexError, start d).
Proof.
  intros Hfiles Htimes.
  apply (getWaveform_no_times net sta loc cha id (start d) Hfiles Htimes).
Qed.

(** *** The directory under the removal loop *)

Lemma lookup_file_skip (f : fname) (pre d : directory) :
  Forall (fun x => fname_eqb f (fst x) = false) pre ->
  lookup_file f (pre ++ d) = lookup_file f d.
Proof.
  induction 1 as [| [g s] pre Hg _ IH]; simpl in *; [reflexivity |].
  rewrite Hg. exact IH.
Qed.

Lemma delete_file_skip (f : fname) (pre d : directory) :
  Forall (fun x => fname_eqb f (fst x) = false) pre ->
  delete_file f (pre ++ d) = (pre ++ delete_file f d)%list.
Proof.
  induction 1 as [| [g s] pre Hg _ IH]; simpl in *; [reflexivity |].
  rewrite Hg, IH. reflexivity.
Qed.

Lemma other_names (P : fname -> bool) (f : fname) (pre : directory) :
  P f = true ->
  Forall (fun x => P (fst x) = false) pre ->
  Forall (fun x => fname_eqb f (fst x) = false) pre.
Proof.
  intros Hf H. eapply Forall_impl; [| exact H].
  intros [g s] Hg; simpl in *.
  destruct (fname_eqb f g) eqn:E; [| reflexivity].
  apply fname_eqb_eq in E. congruence.
Qed.

(** Removing, in listing order, every file that satisfies [P] leaves
    exactly the files that do not. *)
Lemma remove_loop (P : fname -> bool) (d pre : directory)
      (wf : list (string * entry)) (log : list event) :
  Forall (fun x => P (fst x) = false) pre ->
  for_each (filter P (map fst d)) os_remove (mkWorld (pre ++ d) wf log)
  = (Ok tt,
     mkWorld (pre ++ filter (fun x => negb (P (fst x))) d) wf
             (log ++ map EvRemove (filter P (map fst d)))).
Proof.
  revert pre log.
  induction d as [| [f s] d IH]; intros pre log Hpre; simpl.
  - rewrite !app_nil_r. reflexivity.
  - destruct (P f) eqn:Pf; simpl.
    + unfold bind at 1. unfold os_remove, bind, emit, get_dir, put_dir; simpl.
      pose proof (other_names P f pre Pf Hpre) as Hskip.
      rewrite (lookup_file_skip f pre _ Hskip); simpl.
      rewrite fname_eqb_refl.
      rewrite (delete_file_skip f pre _ Hskip); simpl.
      rewrite fname_eqb_refl.
      rewrite (IH pre _ Hpre). rewrite <- app_assoc. reflexivity.
    + change (pre ++ (f, s) :: d)%list with (pre ++ [(f, s)] ++ d)%list.
      rewrite app_assoc.
      rewrite (IH (pre ++ [(f, s)])%list log).
      * rewrite <- app_assoc. reflexivity.
      * apply Forall_app; split; [exact Hpre |].
        constructor; [exact Pf | constructor].
Qed.

Lemma lookup_store_same (f : fname) (s : Stream) (d : directory) :
  lookup_file f (store_file f s d) = Some s.
Proof.
  induction d as [| [g s'] d IH]; simpl.
  - rewrite fname_eqb_refl; reflexivity.
  - destruct (fname_eqb f g) eqn:E; simpl; rewrite E; [reflexivity | exact IH].
Qed.

(** *** What the loading helpers do to the world *)

Lemma fetch_frames_run (net sta loc cha : string) (frames : list (Q * Q))
      (w : world) :
  exists streams l,
    fetch_frames e net sta loc cha frames w
    = (Ok streams, mkWorld (w_dir w) (w_waveforms w) (w_log w ++ l))
    /\ Forall is_fetch l
    /\ List.length l = List.length frames
    /\ Forall (fun s => s <> []) streams.
Proof.
  revert w. induction frames as [| fr frames IH]; intros w; simpl.
  - exists [], []. rewrite app_nil_r. destruct w; simpl.
    repeat split; constructor.
  - unfold bind at 1. unfold fetch, bind, emit, ret; simpl.
    match goal with
    | |- context [fetch_frames _ _ _ _ _ _ ?w'] =>
        destruct (IH w') as (streams & l & Hrun & Hl & Hlen & Hne)
    end.
    unfold bind. rewrite Hrun; simpl. rewrite <- app_assoc; simpl.
    destruct (seishub_getPreview e net sta loc cha
                (Some (fst fr)) (Some (snd fr))) as [| tr rest] eqn:E.
    + exists streams, (EvFetch (Some (fst fr)) (Some (snd fr)) :: l).
      repeat split; simpl; auto.
      constructor; simpl; auto.
    + exists ((require_float32 tr :: rest) :: streams),
        (EvFetch (Some (fst fr)) (Some (snd fr)) :: l).
      repeat split; simpl; auto.
      * constructor; simpl; auto.
      * constructor; [discriminate | exact Hne].
Qed.

(** [loadGaps] never returns an empty stream: with no fetched trace it
    raises [NameError]. *)
Lemma loadGaps_run (frames : list (Q * Q)) (net sta loc cha : string)
      (w : world) :
  exists r l,
    loadGaps e frames net sta loc cha w
    = (r, mkWorld (w_dir w) (w_waveforms w) (w_log w ++ l))
    /\ Forall is_fetch l
    /\ List.length l = List.length frames
    /\ (r = Raise NameError \/ exists g, r = Ok g /\ g <> []).
Proof.
  destruct (fetch_frames_run net sta loc cha frames w)
    as (streams & l & Hrun & Hl & Hlen & Hne).
  unfold loadGaps, bind. rewrite Hrun.
  destruct streams as [| s others].
  - exists (Raise NameError), l. repeat split; auto.
  - exists (Ok (s ++ concat others)%list), l. repeat split; auto.
    right. eexists; split; [reflexivity |].
    inversion Hne; subst. destruct s; [congruence | discriminate].
Qed.

Lemma load_all_run (times : list fname) (w : world) :
  exists r l,
    load_all times w
    = (r, mkWorld (w_dir w) (w_waveforms w) (w_log w ++ l))
    /\ Forall is_load l.
Proof.
  revert w. induction times as [| t times IH]; intros w; simpl.
  - exists (Ok []), []. rewrite app_nil_r. destruct w; split; constructor.
  - unfold bind at 1. unfold load_pickle, bind, emit, get_dir; simpl.
    destruct (lookup_file t (w_dir w)) as [s |] eqn:E; simpl.
    + match goal with
      | |- context [load_all _ ?w'] => destruct (IH w') as (r & l & Hrun & Hl)
      end.
      rewrite Hrun; simpl. rewrite <- app_assoc; simpl.
      destruct r as [streams | x];
        eexists; exists (EvLoad t :: l); (split; [reflexivity |]);
        constructor; simpl; auto.
    + exists (Raise IOError), [EvLoad t]. split; [reflexivity |].
      repeat constructor.
Qed.

Lemma loadFiles_run (times : list fname) (w : world) :
  exists r l,
    loadFiles times w
    = (r, mkWorld (w_dir w) (w_waveforms w) (w_log w ++ l))
    /\ Forall is_load l.
Proof.
  destruct (load_all_run times w) as (r & l & Hrun & Hl).
  unfold loadFiles, bind. rewrite Hrun.
  destruct r as [[| s others] | x]; eexists; exists l; split;
    try reflexivity; exact Hl.
Qed.

(** *** Compaction *)

Lemma times_loaded_for (cha loc : string) (d : directory) :
  filter (intersects e) (filter (wanted cha loc) (map fst d))
  = filter (loaded_for e cha loc) (map fst d).
Proof. apply filter_filter_and. Qed.

Lemma merge_and_pickle_run (cha loc : string) (d : directory)
      (wf : list (string * entry)) (log : list event) (stream : Stream) :
  let times := filter (loaded_for e cha loc) (map fst d) in
  merge_and_pickle C cha loc times stream (mkWorld d wf log)
  = match Stream_merge C stream with
    | [] => (Raise IndexError, mkWorld d wf log)
    | tr :: rest =>
        if (200 <? npts tr)%nat
        then (Ok (Some (tr :: rest)),
              mkWorld (store_file (cache_name C cha loc tr) (tr :: rest)
                                  (kept e cha loc d))
                      wf
                      ((log ++ map EvRemove times)
                         ++ [EvWrite (cache_name C cha loc tr)]))
        else (Ok (Some (tr :: rest)), mkWorld d wf log)
    end.
Proof.
  intros times. unfold merge_and_pickle.
  destruct (Stream_merge C stream) as [| tr rest]; [reflexivity |].
  destruct (200 <? npts tr)%nat; [| reflexivity].
  unfold bind at 1. unfold times.
  pose proof (remove_loop (loaded_for e cha loc) d [] wf log (Forall_nil _))
    as Hloop.
  simpl app in Hloop. rewrite Hloop.
  reflexivity.
Qed.

Lemma getWaveform_cached (net sta loc cha id : string) (w : world)
      (first : fname) (others : list fname) :
  filter (intersects e) (filter (wanted cha loc) (map fst (w_dir w)))
  = first :: others ->
  getWaveform C e net sta loc cha id w
  = assemble C e net sta loc cha first (first :: others) w.
Proof.
  intros Htimes. unfold getWaveform, assemble.
  unfold bind at 1. unfold get_dir.
  destruct (filter (wanted cha loc) (map fst (w_dir w))) as [| f0 files];
    [discriminate |].
  change (List.length (f0 :: files) =? 0)%nat with false. cbv iota.
  rewrite Htimes. reflexivity.
Qed.

(** C1, as the code has it. When [getWaveform] assembles a stream from
    cached files and the merged stream has more than 200 samples, the
    trace of the call is: loads and fetches, then one [os.remove] per
    loaded descriptor in listing order, then, last, the write of the
    consolidated descriptor, under which the directory afterwards holds
    the returned stream. *)
Theorem removals_precede_the_write
        (net sta loc cha id : string) (d : directory)
        (r : Stream) (w' : world) (tr : Trace) (rest : Stream) :
  filter (wanted cha loc) (map fst d) <> [] ->
  getWaveform C e net sta loc cha id (start d) = (Ok (Some r), w') ->
  r = tr :: rest ->
  (200 < npts tr)%nat ->
  let times := filter (intersects e) (filter (wanted cha loc) (map fst d)) in
  exists pre,
    w_log w' = (pre ++ map EvRemove times
                    ++ [EvWrite (cache_name C cha loc tr)])%list
    /\ Forall (fun ev => ~ is_mutation ev) pre
    /\ times <> []
    /\ lookup_file (cache_name C cha loc tr) (w_dir w') = Some r.
Proof.
  intros Hfiles Hrun Hr Hn times.
  assert (Hquiet_load : forall l, Forall is_load l ->
                                  Forall (fun ev => ~ is_mutation ev) l).
  { intros l Hl. eapply Forall_impl; [| exact Hl].
    intros [] H; simpl in *; tauto. }
  assert (Hquiet_fetch : forall l, Forall is_fetch l ->
                                   Forall (fun ev => ~ is_mutation ev) l).
  { intros l Hl. eapply Forall_impl; [| exact Hl].
    intros [] H; simpl in *; tauto. }
  assert (Hfinish : forall stream l,
             Forall (fun ev => ~ is_mutation ev) l ->
             merge_and_pickle C cha loc times stream (mkWorld d [] l)
             = (Ok (Some r), w') ->
             exists pre,
               w_log w' = (pre ++ map EvRemove times
                    ++ [EvWrite (cache_name C cha loc tr)])%list
               /\ Forall (fun ev => ~ is_mutation ev) pre
               /\ lookup_file (cache_name C cha loc tr) (w_dir w') = Some r).
  { intros stream l Hl Hm. unfold times in Hm.
    rewrite times_loaded_for, merge_and_pickle_run in Hm.
    destruct (Stream_merge C stream) as [| tr' rest']; [discriminate |].
    destruct (200 <? npts tr')%nat eqn:E.
    - injection Hm as Hres Hw. rewrite Hr in Hres.
      injection Hres as -> ->. subst w'; simpl.
      exists l. rewrite <- times_loaded_for, <- app_assoc.
      repeat split; auto. rewrite Hr. apply lookup_store_same.
    - injection Hm as Hres Hw. rewrite Hr in Hres.
      injection Hres as -> ->.
      apply Nat.ltb_ge in E. lia. }
  destruct times as [| first others] eqn:Etimes.
  { pose proof (getWaveform_no_times
                  net sta loc cha id (start d) Hfiles Etimes) as Herr.
    rewrite Herr in Hrun. discriminate. }
  rewrite (getWaveform_cached net sta loc cha id (start d) first others Etimes)
    in Hrun.
  unfold assemble, start in Hrun. unfold bind at 1 in Hrun.
  destruct (loadFiles_run (first :: others) (mkWorld d [] []))
    as (r1 & l1 & Hload & Hl1).
  simpl in Hload. rewrite Hload in Hrun.
  destruct r1 as [stream | x]; [| discriminate].
  destruct (missing_time_frames e first (first :: others)) as [| g gs].
  - destruct (Hfinish stream l1 (Hquiet_load _ Hl1) Hrun)
      as (pre & H1 & H2 & H3).
    exists pre. repeat split; auto. discriminate.
  - destruct (loadGaps_run (g :: gs) net sta loc cha (mkWorld d [] l1))
      as (r2 & l2 & Hgaps & Hl2 & _ & Hr2).
    simpl in Hgaps. unfold bind at 1 in Hrun. rewrite Hgaps in Hrun.
    destruct Hr2 as [-> | (gaps & -> & Hne)]; [discriminate |].
    destruct (stream ++ gaps)%list as [| t0 ts] eqn:Eapp.
    + apply app_eq_nil in Eapp. tauto.
    + assert (Hq : Forall (fun ev => ~ is_mutation ev) (l1 ++ l2))
        by (apply Forall_app; split; auto).
      destruct (Hfinish (t0 :: ts) (l1 ++ l2)%list Hq Hrun)
        as (pre & H1 & H2 & H3).
      exists pre. repeat split; auto. discriminate.
Qed.

(** *** A repeated request *)

Lemma filter_nil_Forall (P : fname -> bool) (d : directory) :
  filter P (map fst d) = [] -> Forall (fun x => P (fst x) = false) d.
Proof.
  induction d as [| [f s] d IH]; simpl; intros H; [constructor |].
  destruct (P f) eqn:E; [discriminate |].
  constructor; [exact E | exact (IH H)].
Qed.

Lemma kept_not_loaded (cha loc : string) (d : directory) :
  Forall (fun x => loaded_for e cha loc (fst x) = false) (kept e cha loc d).
Proof.
  apply Forall_forall. intros x Hx. unfold kept in Hx.
  apply filter_In in Hx. destruct Hx as [_ Hx].
  apply negb_true_iff in Hx. exact Hx.
Qed.

Lemma Forall_filter_nil (P : fname -> bool) (d : directory) :
  Forall (fun x => P (fst x) = false) d -> filter P (map fst d) = [].
Proof.
  induction 1 as [| [g s] d Hg _ IH]; simpl in *; [reflexivity |].
  rewrite Hg. exact IH.
Qed.

Lemma store_file_filter (P : fname -> bool) (f : fname) (s : Stream)
      (d : directory) :
  Forall (fun x => P (fst x) = false) d ->
  filter P (map fst (store_file f s d)) = if P f then [f] else [].
Proof.
  induction 1 as [| [g s'] d Hg Hd IH]; simpl in *; [reflexivity |].
  destruct (fname_eqb f g) eqn:E; simpl.
  - apply fname_eqb_eq in E. subst g. rewrite Hg.
    apply Forall_filter_nil. exact Hd.
  - rewrite Hg. exact IH.
Qed.

Lemma store_file_has (f : fname) (s : Stream) (d : directory) :
  In f (map fst (store_file f s d)).
Proof.
  induction d as [| [g s'] d IH]; simpl; [left; reflexivity |].
  destruct (fname_eqb f g) eqn:E; simpl.
  - left. apply fname_eqb_eq in E. congruence.
  - right. exact IH.
Qed.

Lemma wanted_cache_name (cha loc : string) (tr : Trace) :
  wanted cha loc (cache_name C cha loc tr) = true.
Proof. unfold wanted, cache_name; simpl. apply String.eqb_refl. Qed.

Lemma getPreview_run (net sta loc cha : string) (t0 t1 : option Q)
      (d : directory) (wf : list (string * entry)) (log : list event) :
  getPreview C e net sta loc cha t0 t1 (mkWorld d wf log)
  = match head_float32 (seishub_getPreview e net sta loc cha t0 t1) with
    | [] => (Ok None, mkWorld d wf (log ++ [EvFetch t0 t1]))
    | tr :: rest =>
        if (200 <? npts tr)%nat
        then (Ok (Some (tr :: rest)),
              mkWorld (store_file (cache_name C cha loc tr) (tr :: rest) d) wf
                      ((log ++ [EvFetch t0 t1])
                         ++ [EvWrite (cache_name C cha loc tr)]))
        else (Ok (Some (tr :: rest)), mkWorld d wf (log ++ [EvFetch t0 t1]))
    end.
Proof.
  unfold getPreview, bind, fetch, bind, emit, ret; simpl.
  destruct (head_float32 (seishub_getPreview e net sta loc cha t0 t1))
    as [| tr rest]; [reflexivity |].
  destruct (200 <? npts tr)%nat; reflexivity.
Qed.

Lemma getWaveform_uncached (net sta loc cha id : string) (w : world) :
  filter (wanted cha loc) (map fst (w_dir w)) = [] ->
  getWaveform C e net sta loc cha id w
  = getPreview C e net sta loc cha None None w.
Proof.
  intros Hfiles. unfold getWaveform. unfold bind at 1. unfold get_dir.
  rewrite Hfiles. reflexivity.
Qed.

(** A successful [assemble] ends in [merge_and_pickle], reached after
    loads and fetches only. *)
Lemma assemble_ok (net sta loc cha : string) (first : fname)
      (times : list fname) (d : directory) (wf : list (string * entry))
      (log : list event) (r : Stream) (w' : world) :
  assemble C e net sta loc cha first times (mkWorld d wf log)
  = (Ok (Some r), w') ->
  exists stream pre,
    Forall (fun ev => is_load ev \/ is_fetch ev) pre
    /\ merge_and_pickle C cha loc times stream (mkWorld d wf (log ++ pre))
       = (Ok (Some r), w').
Proof.
  intros Hrun. unfold assemble in Hrun. unfold bind at 1 in Hrun.
  destruct (loadFiles_run times (mkWorld d wf log))
    as (r1 & l1 & Hload & Hl1).
  simpl in Hload. rewrite Hload in Hrun.
  destruct r1 as [stream | x]; [| discriminate].
  assert (Hl1' : Forall (fun ev => is_load ev \/ is_fetch ev) l1)
    by (eapply Forall_impl; [| exact Hl1]; intros; left; assumption).
  destruct (missing_time_frames e first times) as [| g gs].
  - exists stream, l1. split; assumption.
  - destruct (loadGaps_run (g :: gs) net sta loc cha
                           (mkWorld d wf (log ++ l1)))
      as (r2 & l2 & Hgaps & Hl2 & _ & Hr2).
    simpl in Hgaps. unfold bind at 1 in Hrun. rewrite Hgaps in Hrun.
    destruct Hr2 as [-> | (gaps & -> & Hne)]; [discriminate |].
    destruct (stream ++ gaps)%list as [| t0 ts] eqn:Eapp.
    + apply app_eq_nil in Eapp. tauto.
    + exists (t0 :: ts), (l1 ++ l2)%list. split.
      * apply Forall_app; split; [exact Hl1' |].
        eapply Forall_impl; [| exact Hl2]; intros; right; assumption.
      * rewrite app_assoc. exact Hrun.
Qed.

(** Where a stream that was returned with more than 200 samples lies
    afterwards: under its own name, next to files that are not of the
    channel or do not intersect the window. *)
Lemma getWaveform_persisted (net sta loc cha id : string) (w w1 : world)
      (tr : Trace) (rest : Stream) :
  getWaveform C e net sta loc cha id w = (Ok (Some (tr :: rest)), w1) ->
  (200 < npts tr)%nat ->
  exists d',
    w_dir w1 = store_file (cache_name C cha loc tr) (tr :: rest) d'
    /\ Forall (fun x => loaded_for e cha loc (fst x) = false) d'.
Proof.
  intros Hrun Hn. destruct w as [d wf log].
  apply Nat.ltb_lt in Hn.
  destruct (filter (wanted cha loc) (map fst d)) as [| f0 files] eqn:Efiles.
  - (* nothing cached: getPreview *)
    rewrite getWaveform_uncached in Hrun by exact Efiles.
    rewrite getPreview_run in Hrun.
    destruct (head_float32 (seishub_getPreview e net sta loc cha None None))
      as [| tr' rest']; [discriminate |].
    destruct (200 <? npts tr')%nat eqn:E;
      injection Hrun as Htr Hrest Hw; subst tr' rest'; [| congruence].
    exists d. subst w1; simpl. split; [reflexivity |].
    eapply Forall_impl; [| exact (filter_nil_Forall _ d Efiles)].
    intros x Hx. unfold loaded_for. rewrite Hx. reflexivity.
  - destruct (filter (intersects e) (filter (wanted cha loc) (map fst d)))
      as [| first others] eqn:Etimes.
    + rewrite getWaveform_no_times in Hrun;
        [discriminate | simpl; rewrite Efiles; discriminate
         | simpl; rewrite Efiles; rewrite <- Efiles; exact Etimes].
    + rewrite (getWaveform_cached net sta loc cha id _ first others) in Hrun
        by (simpl; exact Etimes).
      apply assemble_ok in Hrun.
      destruct Hrun as (stream & pre & _ & Hm).
      rewrite <- Etimes, times_loaded_for, merge_and_pickle_run in Hm.
      destruct (Stream_merge C stream) as [| tr' rest']; [discriminate |].
      destruct (200 <? npts tr')%nat eqn:E;
        injection Hm as Htr Hrest Hw; subst tr' rest'; [| congruence].
      exists (kept e cha loc d). subst w1; simpl.
      split; [reflexivity | apply kept_not_loaded].
Qed.

Lemma not_fetch_load (l : list event) :
  Forall is_load l -> Forall (fun ev => ~ is_fetch ev) l.
Proof.
  intros H. eapply Forall_impl; [| exact H]. intros [] Hx; simpl in *; tauto.
Qed.

(** With a single descriptor that covers the window no frame is
    missing and the fetch collaborator is not called. *)
Lemma getWaveform_single_cover (net sta loc cha id : string) (w : world)
      (f : fname) :
  filter (intersects e) (filter (wanted cha loc) (map fst (w_dir w))) = [f] ->
  f_t0 f <= env_starttime e ->
  env_endtime e <= f_t1 f ->
  exists r2 w2 l,
    getWaveform C e net sta loc cha id w = (r2, w2)
    /\ w_log w2 = (w_log w ++ l)%list
    /\ Forall (fun ev => ~ is_fetch ev) l.
Proof.
  intros Htimes H0 H1.
  rewrite (getWaveform_cached net sta loc cha id w f [] Htimes).
  unfold assemble. unfold bind at 1.
  destruct (loadFiles_run [f] w) as (r1 & l1 & Hload & Hl1).
  rewrite Hload.
  destruct r1 as [stream | x].
  2:{ eexists; eexists; exists l1. split; [reflexivity |].
      split; [reflexivity | apply not_fetch_load; exact Hl1]. }
  assert (Hmiss : missing_time_frames e f [f] = []).
  { unfold missing_time_frames; simpl.
    apply Qlt_bool_false in H0. apply Qlt_bool_false in H1.
    rewrite H0, H1. reflexivity. }
  rewrite Hmiss.
  rewrite times_loaded_for in Htimes. rewrite <- Htimes.
  rewrite merge_and_pickle_run. rewrite Htimes.
  destruct (Stream_merge C stream) as [| tr' rest'].
  - eexists; eexists; exists l1. split; [reflexivity |].
    split; [reflexivity | apply not_fetch_load; exact Hl1].
  - destruct (200 <? npts tr')%nat.
    + eexists; eexists;
        exists (l1 ++ [EvRemove f; EvWrite (cache_name C cha loc tr')])%list.
      split; [reflexivity |]. split.
      * simpl. rewrite <- !app_assoc. reflexivity.
      * apply Forall_app; split; [apply not_fetch_load; exact Hl1 |].
        repeat constructor; simpl; tauto.
    + eexists; eexists; exists l1. split; [reflexivity |].
      split; [reflexivity | apply not_fetch_load; exact Hl1].
Qed.

(** A directory that holds a covering descriptor of the channel next to
    files that are not of the channel or miss the window serves the
    request without the fetch collaborator. *)
Lemma covered_request_no_fetch (net sta loc cha id : string) (w : world)
      (tr : Trace) (rest : Stream) (d' : directory) :
  w_dir w = store_file (cache_name C cha loc tr) (tr :: rest) d' ->
  Forall (fun x => loaded_for e cha loc (fst x) = false) d' ->
  float_str C (starttime tr) <= env_starttime e ->
  env_endtime e <= float_str C (endtime tr) ->
  exists r2 w2 l,
    getWaveform C e net sta loc cha id w = (r2, w2)
    /\ w_log w2 = (w_log w ++ l)%list
    /\ Forall (fun ev => ~ is_fetch ev) l.
Proof.
  intros Hdir Hd' H0 H1.
  set (new := cache_name C cha loc tr) in *.
  assert (Htimes : filter (intersects e)
                          (filter (wanted cha loc) (map fst (w_dir w)))
                   = if loaded_for e cha loc new then [new] else []).
  { rewrite times_loaded_for, Hdir. apply store_file_filter. exact Hd'. }
  destruct (loaded_for e cha loc new) eqn:Hnew.
  - apply (getWaveform_single_cover net sta loc cha id w new Htimes);
      assumption.
  - exists (Raise IndexError), w, []. split; [| split].
    + apply getWaveform_no_times; [| exact Htimes].
      intros Hnil.
      pose proof (store_file_has new (tr :: rest) d') as Hin.
      rewrite <- Hdir in Hin.
      assert (Hin' : In new (filter (wanted cha loc) (map fst (w_dir w)))).
      { apply filter_In. split; [exact Hin | apply wanted_cache_name]. }
      rewrite Hnil in Hin'. destruct Hin'.
    + rewrite app_nil_r. reflexivity.
    + constructor.
Qed.

(** When the cache does serve a repeated request: if a first request
    returned a stream that was persisted (more than 200 samples) under
    bounds that, as [float] reads them back from the file name, cover
    the window, and the name is listed as it was written, the same
    request run again on the world the first one left makes no call to
    the fetch collaborator. *)
Theorem repeated_get_fetches_nothing
        (net sta loc cha id : string) (d : directory)
        (tr : Trace) (rest : Stream) (w1 : world) :
  getWaveform C e net sta loc cha id (start d)
  = (Ok (Some (tr :: rest)), w1) ->
  (200 < npts tr)%nat ->
  float_str C (starttime tr) <= env_starttime e ->
  env_endtime e <= float_str C (endtime tr) ->
  exists r2 w2 l,
    getWaveform C e net sta loc cha id w1 = (r2, w2)
    /\ w_log w2 = (w_log w1 ++ l)%list
    /\ Forall (fun ev => ~ is_fetch ev) l.
Proof.
  intros Hrun Hn H0 H1.
  destruct (getWaveform_persisted net sta loc cha id _ _ _ _ Hrun Hn)
    as (d' & Hdir & Hd').
  exact (covered_request_no_fetch net sta loc cha id w1 tr rest d'
                                  Hdir Hd' H0 H1).
Qed.

(** *** The same through [getItem] *)

(** [getItem] leaves the handler exactly where its call of
    [getWaveform] does, and hands the returned stream on. *)
Lemma getItem_calls (net sta loc cha : string) (w w0 : world)
      (r0 : result (option Stream)) :
  getWaveform C e net sta loc cha (waveform_id net sta loc cha) w = (r0, w0) ->
  exists r w',
    getItem C e net sta loc cha w = (r, w')
    /\ w_dir w' = w_dir w0
    /\ w_log w' = w_log w0
    /\ (forall v, r = Ok v -> r0 = Ok (org_stream v)).
Proof.
  intros Hrun. unfold getItem. unfold bind at 1. rewrite Hrun.
  destruct r0 as [[[| tr rest] |] | x].
  - eexists; eexists. split; [reflexivity |]. simpl.
    repeat split. intros v Hv. injection Hv as <-. reflexivity.
  - unfold bind at 1. simpl.
    destruct (processStream e (tr :: rest)) as [red | x].
    + eexists; eexists. split; [reflexivity |]. simpl.
      repeat split. intros v Hv. injection Hv as <-. reflexivity.
    + eexists; eexists. split; [reflexivity |]. simpl.
      repeat split. intros v Hv. discriminate.
  - eexists; eexists. split; [reflexivity |]. simpl.
    repeat split. intros v Hv. injection Hv as <-. reflexivity.
  - eexists; eexists. split; [reflexivity |]. simpl.
    repeat split. intros v Hv. discriminate.
Qed.

(** The repeated request seen by the caller of [getItem]: the stream
    kept in [self.waveforms] does not stop the second call from asking
    [getWaveform] again, and that call is served from the cache. *)
Corollary repeated_getItem_fetches_nothing
          (net sta loc cha : string) (d : directory)
          (v : entry) (tr : Trace) (rest : Stream) (w1 : world) :
  getItem C e net sta loc cha (start d) = (Ok v, w1) ->
  org_stream v = Some (tr :: rest) ->
  (200 < npts tr)%nat ->
  float_str C (starttime tr) <= env_starttime e ->
  env_endtime e <= float_str C (endtime tr) ->
  exists r2 w2 l,
    getItem C e net sta loc cha w1 = (r2, w2)
    /\ w_log w2 = (w_log w1 ++ l)%list
    /\ Forall (fun ev => ~ is_fetch ev) l.
Proof.
  intros Hrun Hv Hn H0 H1.
  set (id := waveform_id net sta loc cha).
  destruct (getWaveform C e net sta loc cha id (start d)) as [r0 w0] eqn:E0.
  destruct (getItem_calls net sta loc cha _ _ _ E0)
    as (r & w' & Hitem & Hdir & Hlog & Hres).
  rewrite Hrun in Hitem. injection Hitem as <- <-.
  rewrite (Hres v eq_refl), Hv in E0.
  destruct (getWaveform_persisted net sta loc cha id _ _ _ _ E0 Hn)
    as (d' & Hd0 & Hd').
  rewrite <- Hdir in Hd0.
  destruct (covered_request_no_fetch net sta loc cha id w1 tr rest d'
                                     Hd0 Hd' H0 H1)
    as (r2 & w2 & l & Hsecond & Hlog2 & Hl).
  destruct (getItem_calls net sta loc cha _ _ _ Hsecond)
    as (r3 & w3 & Hitem3 & _ & Hlog3 & _).
  exists r3, w3, l. split; [exact Hitem3 |].
  split; [rewrite Hlog3; exact Hlog2 | exact Hl].
Qed.

End Runs.

(** ** Concrete runs *)

Example full_cache_run :
  w_log (snd (getWaveform core0 env_full "BW" "FUR" blank "EHZ" "BW.FUR..EHZ"
                          (start dir_full)))
  = [EvLoad (mkName "EHZ[]" 0 300 true);
     EvRemove (mkName "EHZ[]" 0 300 true);
     EvWrite (mkName "EHZ[]" 0 300 true)].
Proof. vm_compute. reflexivity. Qed.

(** C1 fails on the code: a request served from one cached descriptor
    of 301 samples returns the merged stream, which is past the
    threshold, after removing that descriptor and only then writing the
    consolidated one. *)
Lemma persist_before_delete_fails :
  let run := getWaveform core0 env_full "BW" "FUR" blank "EHZ" "BW.FUR..EHZ"
                         (start dir_full) in
  fst run = Ok (Some [ehz 0 (zeros 301)])
  /\ (200 < npts (ehz 0 (zeros 301)))%nat
  /\ ~ written_before_removed (w_log (snd run)).
Proof.
  cbv zeta. split; [vm_compute; reflexivity |].
  split; [apply Nat.ltb_lt; vm_compute; reflexivity |].
  rewrite full_cache_run. intros H.
  specialize (H 1%nat 2%nat (mkName "EHZ[]" 0 300 true)
                (mkName "EHZ[]" 0 300 true) eq_refl eq_refl).
  lia.
Qed.

(** The compaction of the fully cached request: one removal, then the
    write. *)
Lemma removals_precede_the_write_witness :
  exists pre,
    w_log (snd (getWaveform core0 env_full "BW" "FUR" blank "EHZ" "BW.FUR..EHZ"
                            (start dir_full)))
    = (pre ++ map EvRemove [mkName "EHZ[]" 0 300 true]
           ++ [EvWrite (mkName "EHZ[]" 0 300 true)])%list.
Proof.
  destruct (removals_precede_the_write core0 env_full
              "BW" "FUR" blank "EHZ" "BW.FUR..EHZ" dir_full
              [ehz 0 (zeros 301)]
              (snd (getWaveform core0 env_full "BW" "FUR" blank "EHZ"
                                "BW.FUR..EHZ" (start dir_full)))
              (ehz 0 (zeros 301)) [])
    as (pre & Hlog & _).
  - vm_compute. discriminate.
  - vm_compute. reflexivity.
  - reflexivity.
  - apply Nat.ltb_lt. vm_compute. reflexivity.
  - exists pre. exact Hlog.
Defined.

(** The window [400, 500] against the descriptor [0, 300]. *)
Lemma getWaveform_IndexError_without_intersection_witness :
  getWaveform core0 (mkEnv 400 500 1 100 None false no_data)
              "BW" "FUR" blank "EHZ" "BW.FUR..EHZ" (start dir_full)
  = (Raise IndexError, start dir_full).
Proof.
  apply (getWaveform_IndexError_without_intersection
           core0 (mkEnv 400 500 1 100 None false no_data)
           "BW" "FUR" blank "EHZ" "BW.FUR..EHZ" dir_full).
  - vm_compute. discriminate.
  - vm_compute. reflexivity.
Defined.

(** ** The display reducer (C7, C8) *)

Section Reducer.

Variable e : Env.

(** C7 on the code: with a logarithmic base configured the reducer
    never returns; on a stream that passes the shape checks it fails
    with [AttributeError] at [self.ptp], before any rescaling. *)
Theorem processStream_log_scale_never_returns (stream : Stream) :
  truthy (env_log_scale e) = true ->
  (forall r, processStream e stream <> Ok r)
  /\ (forall tr,
         Stream_trim (env_starttime e) (env_endtime e) true stream = [tr] ->
         (0 < env_detail e <= npts tr)%nat ->
         processStream e stream = Raise AttributeError).
Proof.
  intros Hlog. unfold processStream. split.
  - intros r.
    destruct (Stream_trim (env_starttime e) (env_endtime e) true stream)
      as [| tr [| tr' rest]]; try discriminate.
    destruct (env_detail e =? 0)%nat; [discriminate |].
    destruct (List.length (data tr) / env_detail e =? 0)%nat; [discriminate |].
    rewrite Hlog. discriminate.
  - intros tr -> [Hpix Hn].
    destruct (env_detail e =? 0)%nat eqn:E0.
    { apply Nat.eqb_eq in E0. lia. }
    destruct (List.length (data tr) / env_detail e =? 0)%nat eqn:E1.
    { apply Nat.eqb_eq in E1. apply Nat.div_small_iff in E1; [| lia].
      unfold npts in Hn. lia. }
    rewrite Hlog. reflexivity.
Qed.

Lemma reshape_length (pixel per_pixel : nat) (l : list (option Q)) :
  List.length (reshape pixel per_pixel l) = pixel.
Proof.
  revert l; induction pixel as [| k IH]; intros l; simpl;
    [reflexivity | rewrite IH; reflexivity].
Qed.

Lemma removelast_len {A} (l : list A) :
  List.length (removelast l) = Nat.pred (List.length l).
Proof.
  induction l as [| x [| y l] IH]; simpl in *; [reflexivity .. |].
  rewrite IH. reflexivity.
Qed.

Lemma fold_last_pixel_length (ptp : list (option Q)) (lp : option Q) :
  List.length (fold_last_pixel ptp lp) = List.length ptp.
Proof.
  unfold fold_last_pixel.
  destruct (last ptp None) as [a |] eqn:El; [| reflexivity].
  destruct lp as [b |]; [| reflexivity].
  destruct (Qlt_bool a b); [| reflexivity].
  destruct ptp as [| x ptp]; [discriminate |].
  rewrite length_app, removelast_len. simpl. lia.
Qed.

(** A masked bucket stays masked when the remainder is folded in. *)
Lemma fold_last_pixel_masked (ptp : list (option Q)) (lp : option Q)
      (i : nat) :
  nth_error ptp i = Some None ->
  nth_error (fold_last_pixel ptp lp) i = Some None.
Proof.
  intros Hi. unfold fold_last_pixel.
  destruct (last ptp None) as [a |] eqn:El; [| exact Hi].
  destruct lp as [b |]; [| exact Hi].
  destruct (Qlt_bool a b); [| exact Hi].
  assert (Hne : ptp <> []) by (intros ->; destruct i; discriminate).
  rewrite (app_removelast_last None Hne), El in Hi.
  destruct (Nat.lt_ge_cases i (List.length (removelast ptp))) as [Hlt | Hge].
  - rewrite nth_error_app1 in Hi by exact Hlt.
    rewrite nth_error_app1 by exact Hlt. exact Hi.
  - rewrite nth_error_app2 in Hi by exact Hge.
    destruct (i - List.length (removelast ptp))%nat as [| k];
      simpl in Hi; [discriminate | destruct k; discriminate].
Qed.

Lemma bucket_ptp_length (pixel : nat) (cells : list (option Q)) :
  List.length (bucket_ptp pixel cells) = pixel.
Proof.
  unfold bucket_ptp.
  destruct (skipn (pixel * (List.length cells / pixel)) cells);
    [| rewrite fold_last_pixel_length];
    rewrite length_map, reshape_length; reflexivity.
Qed.

Lemma cells_ptp_masked (row : list (option Q)) :
  all_masked row -> cells_ptp row = None.
Proof.
  intros H. unfold cells_ptp.
  replace (valid_cells row) with (@nil Q); [reflexivity |].
  induction H as [| c row Hc _ IH]; simpl; [reflexivity |].
  rewrite Hc. exact IH.
Qed.

Lemma bucket_ptp_masked (pixel : nat) (cells row : list (option Q))
      (i : nat) :
  nth_error (reshape pixel (List.length cells / pixel)
                     (firstn (pixel * (List.length cells / pixel)) cells)) i
  = Some row ->
  all_masked row ->
  nth_error (bucket_ptp pixel cells) i = Some None.
Proof.
  intros Hrow Hm.
  assert (H : nth_error
                (map cells_ptp
                     (reshape pixel (List.length cells / pixel)
                        (firstn (pixel * (List.length cells / pixel)) cells)))
                i = Some None).
  { rewrite nth_error_map, Hrow. simpl. rewrite cells_ptp_masked; auto. }
  unfold bucket_ptp.
  destruct (skipn (pixel * (List.length cells / pixel)) cells);
    [exact H | apply fold_last_pixel_masked; exact H].
Qed.

Lemma rescale_length (ptp : list (option Q)) :
  List.length (rescale ptp) = List.length ptp.
Proof.
  unfold rescale. destruct (cells_max ptp) as [m |];
    [destruct (Qeq_bool m 0) |]; apply length_map.
Qed.

Lemma rescale_masked (ptp : list (option Q)) (i : nat) :
  nth_error ptp i = Some None -> nth_error (rescale ptp) i = Some None.
Proof.
  intros H. unfold rescale. destruct (cells_max ptp) as [m |];
    [destruct (Qeq_bool m 0) |]; rewrite nth_error_map, H; reflexivity.
Qed.

(** C8. On every run that returns, the output has one value per pixel,
    and at every position: a rescaled number strictly between 0 and 0.5
    comes out as exactly 0.5; a rescaled number equal to 0 comes out
    unchanged; a bucket whose samples are all masked comes out as 0. *)
Theorem faint_values_raised_gaps_kept (stream : Stream) (r : Reduced) :
  processStream e stream = Ok r ->
  exists tr,
    Stream_trim (env_starttime e) (env_endtime e) true stream = [tr]
    /\ List.length (red_data r) = env_detail e
    /\ forall i,
        let pixel := env_detail e in
        let per_pixel := (npts tr / pixel)%nat in
        let scaled := rescale (bucket_ptp pixel (data tr)) in
        (forall v, nth_error scaled i = Some (Some (Num v)) ->
                   0 < v /\ v < 1 # 2 ->
                   nth_error (red_data r) i = Some (Num (1 # 2)))
        /\ (forall v, nth_error scaled i = Some (Some (Num v)) ->
                      v == 0 ->
                      nth_error (red_data r) i = Some (Num v))
        /\ (forall row,
               nth_error (reshape pixel per_pixel
                                  (firstn (pixel * per_pixel) (data tr))) i
               = Some row ->
               all_masked row ->
               nth_error (red_data r) i = Some (Num 0)).
Proof.
  unfold processStream. intros Hrun.
  destruct (Stream_trim (env_starttime e) (env_endtime e) true stream)
    as [| tr [| tr' rest]]; try discriminate.
  destruct (env_detail e =? 0)%nat; [discriminate |].
  destruct (List.length (data tr) / env_detail e =? 0)%nat; [discriminate |].
  destruct (truthy (env_log_scale e)); [discriminate |].
  injection Hrun as <-. simpl red_data.
  exists tr. split; [reflexivity |]. split.
  { unfold filled. rewrite !length_map, rescale_length.
    apply bucket_ptp_length. }
  intros i. cbv zeta. unfold filled.
  repeat split.
  - intros v Hv [Hlo Hhi].
    rewrite !nth_error_map, Hv. simpl.
    apply Qlt_bool_iff in Hlo. apply Qlt_bool_iff in Hhi.
    rewrite Hlo, Hhi. reflexivity.
  - intros v Hv Hz.
    rewrite !nth_error_map, Hv. simpl.
    replace (Qlt_bool 0 v) with false; [reflexivity |].
    symmetry. apply Qlt_bool_false. lra.
  - intros row Hrow Hm.
    rewrite !nth_error_map.
    rewrite (rescale_masked _ i
               (bucket_ptp_masked (env_detail e) (data tr) row i Hrow Hm)).
    reflexivity.
Qed.

End Reducer.

(** ** Trimming a series to its own bounds (C9) *)

Lemma round_away_zero (q : Q) : q == 0 -> round_away q = 0%Z.
Proof.
  intros H. unfold round_away.
  destruct (Qle_bool 0 q); rewrite H; reflexivity.
Qed.

Lemma snap7_zero (q : Q) : q == 0 -> snap7 q == 0.
Proof.
  intros H. unfold snap7. rewrite round_away_zero.
  - reflexivity.
  - rewrite H. reflexivity.
Qed.

Lemma sample_delta_zero (nearestSample : bool) (q : Q) :
  q == 0 -> sample_delta nearestSample q = 0%Z.
Proof.
  intros H. apply snap7_zero in H. unfold sample_delta.
  destruct nearestSample.
  - apply round_away_zero. exact H.
  - rewrite H. reflexivity.
Qed.

Lemma endtime_same (r s : Trace) :
  same_series r s -> endtime r == endtime s.
Proof.
  intros (_ & _ & _ & _ & Ht & Hr & _ & Hd & _).
  unfold endtime, npts. rewrite Hd.
  destruct (List.length (data s)); [exact Ht |].
  rewrite Ht, Hr. reflexivity.
Qed.

Lemma starttime_le_endtime (s : Trace) :
  valid s -> starttime s <= endtime s.
Proof.
  unfold valid, endtime. intros Hr.
  destruct (npts s) as [| n]; [lra |].
  assert (H0 : 0 <= inject_Z (Z.of_nat n)).
  { change 0 with (inject_Z 0). rewrite <- Zle_Qle. lia. }
  assert (H1 : 0 <= inject_Z (Z.of_nat n) / sampling_rate s).
  { apply Qle_shift_div_l; [exact Hr | lra]. }
  lra.
Qed.

Lemma leftTrim_own_start (s : Trace) (nearestSample pad : bool) :
  same_series (leftTrim (Abs (starttime s)) nearestSample pad s) s.
Proof.
  unfold leftTrim.
  rewrite (sample_delta_zero nearestSample
             ((starttime s - starttime s) * sampling_rate s)) by ring.
  change (0 <? 0)%Z with false. cbv iota.
  destruct (Z.of_nat (npts s) <=? 0)%Z eqn:E.
  - apply Z.leb_le in E.
    assert (Hn : data s = []).
    { unfold npts in E. destruct (data s); [reflexivity | simpl in E; lia]. }
    unfold same_series; simpl. rewrite Hn.
    repeat split; reflexivity.
  - unfold same_series; simpl.
    repeat split; try reflexivity.
    unfold Qdiv. ring.
Qed.

Lemma rightTrim_own_end (l s : Trace) (nearestSample pad : bool) :
  same_series l s ->
  same_series (rightTrim (Abs (endtime s)) nearestSample pad l) s.
Proof.
  intros Hl. pose proof (endtime_same l s Hl) as He.
  unfold rightTrim.
  rewrite (sample_delta_zero nearestSample
             ((endtime l - endtime s) * sampling_rate l))
    by (rewrite He; ring).
  change (0 <? 0)%Z with false. cbv iota.
  destruct Hl as (H1 & H2 & H3 & H4 & Ht & Hr & Hdt & Hd & Hh).
  destruct (Z.of_nat (npts l) <=? 0)%Z eqn:E.
  - apply Z.leb_le in E.
    assert (Hn : data l = []).
    { unfold npts in E. destruct (data l); [reflexivity | simpl in E; lia]. }
    unfold same_series; simpl.
    repeat split; try assumption; try congruence.
    unfold endtime, npts. rewrite <- Hd, Hn. simpl. reflexivity.
  - unfold same_series; simpl.
    repeat split; try assumption.
    rewrite <- Hd. change (Z.to_nat 0) with 0%nat.
    rewrite Nat.sub_0_r. apply firstn_all.
Qed.

Lemma trim_own_bounds (s : Trace) (pad nearestSample : bool) :
  valid s ->
  same_series (trim (Abs (starttime s)) (Abs (endtime s))
                    pad nearestSample s) s.
Proof.
  intros Hv. unfold trim.
  pose proof (leftTrim_own_start s nearestSample pad) as Hl.
  set (l := leftTrim (Abs (starttime s)) nearestSample pad s) in *.
  pose proof (endtime_same l s Hl) as He.
  assert (Hclip : clipped_end (Abs (endtime s)) nearestSample l == endtime l).
  { unfold clipped_end.
    rewrite (sample_delta_zero nearestSample
               ((endtime l - endtime s) * sampling_rate l))
      by (rewrite He; ring).
    unfold Qdiv. ring. }
  assert (Hvl : valid l).
  { unfold valid in *. destruct Hl as (_ & _ & _ & _ & _ & Hr & _).
    rewrite Hr. exact Hv. }
  replace (Qlt_bool (clipped_end (Abs (endtime s)) nearestSample l)
                    (starttime l)) with false.
  - apply rightTrim_own_end. exact Hl.
  - symmetry. apply Qlt_bool_false. rewrite Hclip.
    apply starttime_le_endtime. exact Hvl.
Qed.

(** C9. Trimming a valid series to its own start and end allocates a
    new series with the same samples (hence the same count), the same
    start and end, and the same identity, rate, dtype and history; the
    series that was trimmed is still what the store holds at its
    address. *)
Theorem trim_to_own_bounds_is_identity
        (h : heap) (a : nat) (s : Trace) (pad nearestSample : bool) :
  nth_error h a = Some s ->
  valid s ->
  exists h' a' r,
    trim_at h a (Abs (starttime s)) (Abs (endtime s)) pad nearestSample
    = Some (h', a')
    /\ a' <> a
    /\ nth_error h' a = Some s
    /\ nth_error h' a' = Some r
    /\ npts r = npts s
    /\ data r = data s
    /\ starttime r == starttime s
    /\ endtime r == endtime s
    /\ same_series r s.
Proof.
  intros Ha Hv.
  pose proof (trim_own_bounds s pad nearestSample Hv) as Hs.
  assert (Hlt : (a < List.length h)%nat)
    by (apply nth_error_Some; congruence).
  unfold trim_at, alloc. rewrite Ha.
  eexists; eexists; eexists. split; [reflexivity |].
  split; [lia |].
  split; [rewrite nth_error_app1 by exact Hlt; exact Ha |].
  split; [rewrite nth_error_app2 by lia; rewrite Nat.sub_diag; reflexivity |].
  pose proof (endtime_same _ _ Hs) as He.
  destruct Hs as (H1 & H2 & H3 & H4 & Ht & Hr & Hdt & Hd & Hh).
  repeat split; try assumption.
  unfold npts. rewrite Hd. reflexivity.
Qed.

(** ** Merging two series (C5, C6) *)

Lemma cell_eqb_iff (x y : option Q) : cell_eqb x y = true <-> same_cell x y.
Proof.
  destruct x, y; simpl; try apply Qeq_bool_iff; split;
    (discriminate || tauto).
Qed.

Lemma cells_eqb_iff (l r : list (option Q)) :
  cells_eqb l r = true <-> Forall2 same_cell l r.
Proof.
  revert r; induction l as [| x l IH]; intros [| y r]; simpl.
  - split; [constructor | reflexivity].
  - split; [discriminate | intros H; inversion H].
  - split; [discriminate | intros H; inversion H].
  - rewrite andb_true_iff, cell_eqb_iff, IH. split.
    + intros [H1 H2]; constructor; assumption.
    + intros H; inversion H; subst; split; assumption.
Qed.

Lemma dtype_eqb_iff (a b : dtype) : dtype_eqb a b = true <-> a = b.
Proof. destruct a, b; simpl; split; (discriminate || reflexivity). Qed.

Lemma same_id_iff (a b : Trace) : same_id a b = true <-> trace_id a = trace_id b.
Proof.
  unfold same_id, trace_id. rewrite !andb_true_iff, !String.eqb_eq. split.
  - intros [[[-> ->] ->] ->]; reflexivity.
  - intros H; injection H; auto.
Qed.

Lemma compatible_iff (a b : Trace) :
  compatible a b = true
  <-> trace_id a = trace_id b
      /\ sampling_rate a == sampling_rate b
      /\ data_dtype a = data_dtype b.
Proof.
  unfold compatible.
  rewrite !andb_true_iff, same_id_iff, Qeq_bool_iff, dtype_eqb_iff. tauto.
Qed.

Lemma compatible_sym (a b : Trace) : compatible a b = compatible b a.
Proof.
  apply eq_true_iff_eq. rewrite !compatible_iff.
  split; intros (H1 & H2 & H3); repeat split; auto; symmetry; assumption.
Qed.

Lemma earlier_cases (a b : Trace) :
  (earlier a b = a /\ later a b = b) \/ (earlier a b = b /\ later a b = a).
Proof.
  unfold earlier, later. destruct (Qle_bool (starttime a) (starttime b)); auto.
Qed.

(** C6. [add] signals IncompatibleSeries, in both argument orders, as
    soon as the identities, the sampling rates or the dtypes differ, and
    returns no series then; when all three match it returns a series
    that carries them unchanged. *)
Theorem add_rejects_exactly_the_incompatible (a b : Trace) :
  (trace_id a <> trace_id b
   \/ ~ sampling_rate a == sampling_rate b
   \/ data_dtype a <> data_dtype b ->
   add a b = inl IncompatibleSeries /\ add b a = inl IncompatibleSeries)
  /\ (trace_id a = trace_id b ->
      sampling_rate a == sampling_rate b ->
      data_dtype a = data_dtype b ->
      exists r,
        add a b = inr r
        /\ trace_id r = trace_id a
        /\ sampling_rate r == sampling_rate a
        /\ data_dtype r = data_dtype a).
Proof.
  split.
  - intros H.
    assert (Hc : compatible a b = false).
    { destruct (compatible a b) eqn:E; [| reflexivity].
      apply compatible_iff in E. tauto. }
    unfold add. rewrite <- (compatible_sym a b), Hc. split; reflexivity.
  - intros Hid Hrate Hdt.
    assert (Hc : compatible a b = true) by (apply compatible_iff; auto).
    unfold add. rewrite Hc. eexists. split; [reflexivity |].
    destruct (earlier_cases a b) as [[-> _] | [-> _]];
      unfold trace_id in *; simpl; repeat split; auto; try reflexivity.
    symmetry; exact Hrate.
Qed.

Lemma sandwich (x y z : list (option Q)) (d n : nat) :
  List.length x = d -> List.length y = n ->
  firstn d (x ++ y ++ z) = x
  /\ region (x ++ y ++ z) d n = y
  /\ skipn (d + n) (x ++ y ++ z) = z.
Proof.
  intros Hx Hy. unfold region. subst d n. repeat split.
  - rewrite firstn_app, Nat.sub_diag, firstn_all. simpl. apply app_nil_r.
  - rewrite skipn_app, Nat.sub_diag, skipn_all. simpl.
    rewrite firstn_app, Nat.sub_diag, firstn_all. simpl. apply app_nil_r.
  - rewrite app_assoc, skipn_app, length_app, Nat.sub_diag.
    rewrite skipn_all2 by (rewrite length_app; lia). reflexivity.
Qed.

Lemma region_length (l : list (option Q)) (d n : nat) :
  (d + n <= List.length l)%nat -> List.length (region l d n) = n.
Proof.
  intros H. unfold region. rewrite length_firstn, length_skipn. lia.
Qed.

Lemma split_at_region (l : list (option Q)) (d n : nat) :
  l = (firstn d l ++ region l d n ++ skipn (d + n) l)%list.
Proof.
  unfold region.
  rewrite <- (firstn_skipn d l) at 1. f_equal.
  rewrite <- (firstn_skipn n (skipn d l)) at 1. f_equal.
  rewrite skipn_skipn. f_equal. lia.
Qed.

(** Closes the cases in which the assumption on the pairs contradicts
    the outcome [Eq] of the comparison. *)
Ltac settle_pairs Eq :=
  repeat split; intros; auto;
  try solve
      [ exfalso;
        match goal with
        | H : Forall2 same_cell _ _ |- _ =>
            apply cells_eqb_iff in H; congruence
        | H : ~ Forall2 same_cell _ _ |- _ =>
            apply H; apply cells_eqb_iff; exact Eq
        end ].

(** C5. When the two series overlap (the later one starts inside the
    earlier one), with [n] the number of shared positions starting at
    offset [d]: if every pair of corresponding cells holds the same
    sample, the result carries the earlier series' cells there, which
    are the shared data, and no cell that was not masked already is
    masked; if some pair differs, all [n] cells are masked. Outside the
    shared positions every cell comes from the series it belongs to. *)
Theorem overlap_agrees_or_is_masked (a b r : Trace) :
  add a b = inr r ->
  let l := earlier a b in
  let rt := later a b in
  let d := sample_offset l rt in
  let n := Nat.min (npts l - d) (npts rt) in
  (d < npts l)%nat ->
  let shared_l := region (data l) d n in
  let shared_r := firstn n (data rt) in
  (Forall2 same_cell shared_l shared_r ->
   region (data r) d n = shared_l
   /\ (is_masked shared_l = false -> is_masked (region (data r) d n) = false))
  /\ (~ Forall2 same_cell shared_l shared_r ->
      region (data r) d n = masked_filler n)
  /\ firstn d (data r) = firstn d (data l)
  /\ skipn (d + n) (data r)
     = (skipn (d + n) (data l) ++ skipn n (data rt))%list.
Proof.
  intros Hadd l rt d n Hd shared_l shared_r.
  unfold add in Hadd. destruct (compatible a b); [| discriminate].
  injection Hadd as <-. fold l rt d. simpl data.
  unfold npts in *. unfold shared_l, shared_r.
  assert (Hfd : List.length (firstn d (data l)) = d)
    by (rewrite length_firstn; lia).
  unfold merged_cells, classify.
  replace (List.length (data l) <? d)%nat with false
    by (symmetry; apply Nat.ltb_ge; lia).
  replace (List.length (data l) =? d)%nat with false
    by (symmetry; apply Nat.eqb_neq; lia).
  destruct (List.length (data l) <? d + List.length (data rt))%nat eqn:E.
  - (* overlap *)
    apply Nat.ltb_lt in E.
    assert (Hn : n = (List.length (data l) - d)%nat) by (unfold n; lia).
    rewrite <- Hn.
    assert (Hrl : List.length (region (data l) d n) = n)
      by (apply region_length; lia).
    assert (Htail : skipn (d + n) (data l) = [])
      by (apply skipn_all2; lia).
    rewrite Htail. simpl app.
    destruct (cells_eqb (region (data l) d n) (firstn n (data rt))) eqn:Eq.
    + destruct (sandwich (firstn d (data l)) (region (data l) d n)
                         (skipn n (data rt)) d n Hfd Hrl)
        as (S1 & S2 & S3).
      rewrite S1, S2, S3. settle_pairs Eq.
    + assert (Hml : List.length (masked_filler n) = n)
        by apply repeat_length.
      destruct (sandwich (firstn d (data l)) (masked_filler n)
                         (skipn n (data rt)) d n Hfd Hml)
        as (S1 & S2 & S3).
      rewrite S1, S2, S3. settle_pairs Eq.
  - (* containment *)
    apply Nat.ltb_ge in E.
    assert (Hn : n = List.length (data rt)) by (unfold n; lia).
    rewrite <- Hn.
    assert (Hr : firstn n (data rt) = data rt)
      by (rewrite Hn; apply firstn_all).
    assert (Htail : skipn n (data rt) = [])
      by (apply skipn_all2; lia).
    rewrite Hr, Htail, app_nil_r.
    destruct (cells_eqb (region (data l) d n) (data rt)) eqn:Eq.
    + settle_pairs Eq.
    + assert (Hml : List.length (masked_filler n) = n)
        by apply repeat_length.
      destruct (sandwich (firstn d (data l)) (masked_filler n)
                         (skipn (d + n) (data l)) d n Hfd Hml)
        as (S1 & S2 & S3).
      rewrite S1, S2, S3. settle_pairs Eq.
Qed.

(** ** The no-data report *)

Section Report.

Variable C : Core.
Variable e : Env.

Lemma silent_loads (l : list event) : Forall is_load l -> silent l.
Proof.
  intros H. eapply Forall_impl; [| exact H].
  intros [] Hx; simpl in *; (tauto || discriminate).
Qed.

Lemma silent_fetches (l : list event) : Forall is_fetch l -> silent l.
Proof.
  intros H. eapply Forall_impl; [| exact H].
  intros [] Hx; simpl in *; (tauto || discriminate).
Qed.

Lemma silent_removes (fs : list fname) : silent (map EvRemove fs).
Proof.
  apply Forall_forall. intros ev Hev. apply in_map_iff in Hev.
  destruct Hev as (f & <- & _). discriminate.
Qed.

Lemma merge_and_pickle_silent (cha loc : string) (d : directory)
      (wf : list (string * entry)) (log : list event) (stream : Stream) :
  exists r w' l,
    merge_and_pickle C cha loc (filter (loaded_for e cha loc) (map fst d))
                     stream (mkWorld d wf log) = (r, w')
    /\ w_log w' = (log ++ l)%list /\ silent l.
Proof.
  rewrite merge_and_pickle_run.
  destruct (Stream_merge C stream) as [| tr rest].
  - eexists; eexists; exists []. rewrite app_nil_r.
    repeat split; constructor.
  - destruct (200 <? npts tr)%nat.
    + eexists; eexists.
      exists (map EvRemove (filter (loaded_for e cha loc) (map fst d))
                  ++ [EvWrite (cache_name C cha loc tr)])%list.
      split; [reflexivity |]. split; [simpl; rewrite <- app_assoc; reflexivity |].
      apply Forall_app; split; [apply silent_removes |].
      constructor; [discriminate | constructor].
    + eexists; eexists; exists []. rewrite app_nil_r.
      repeat split; constructor.
Qed.

(** No run of [getWaveform] reaches [setError]: the test [not stream]
    after the gaps were loaded can only succeed on an empty answer of
    [loadGaps], and [loadGaps] has raised [NameError] by then. *)
Lemma getWaveform_never_reports (net sta loc cha id : string) (w : world) :
  exists r w' l,
    getWaveform C e net sta loc cha id w = (r, w')
    /\ w_log w' = (w_log w ++ l)%list /\ silent l.
Proof.
  destruct w as [d wf log]. simpl w_log.
  destruct (filter (wanted cha loc) (map fst d)) as [| f0 files] eqn:Efiles.
  - rewrite getWaveform_uncached by exact Efiles.
    rewrite getPreview_run.
    destruct (head_float32 (seishub_getPreview e net sta loc cha None None))
      as [| tr rest].
    + eexists; eexists; exists [EvFetch None None].
      repeat split. constructor; [discriminate | constructor].
    + destruct (200 <? npts tr)%nat.
      * eexists; eexists;
          exists [EvFetch None None; EvWrite (cache_name C cha loc tr)].
        split; [reflexivity |]. split; [simpl; rewrite <- app_assoc; reflexivity |].
        repeat constructor; discriminate.
      * eexists; eexists; exists [EvFetch None None].
        repeat split. constructor; [discriminate | constructor].
  - destruct (filter (intersects e) (filter (wanted cha loc) (map fst d)))
      as [| first others] eqn:Etimes.
    + rewrite getWaveform_no_times;
        [| simpl; rewrite Efiles; discriminate
         | simpl; rewrite Efiles; rewrite <- Efiles; exact Etimes].
      eexists; eexists; exists []. rewrite app_nil_r.
      repeat split; constructor.
    + rewrite (getWaveform_cached C e net sta loc cha id _ first others)
        by (simpl; exact Etimes).
      unfold assemble. unfold bind at 1.
      destruct (loadFiles_run (first :: others) (mkWorld d wf log))
        as (r1 & l1 & Hload & Hl1).
      simpl in Hload. rewrite Hload.
      rewrite times_loaded_for in Etimes. rewrite <- Etimes.
      destruct r1 as [stream | x].
      2:{ eexists; eexists; exists l1. repeat split.
          apply silent_loads; exact Hl1. }
      destruct (missing_time_frames e first
                  (filter (loaded_for e cha loc) (map fst d))) as [| g gs].
      * destruct (merge_and_pickle_silent cha loc d wf (log ++ l1) stream)
          as (r & w' & l & Hm & Hlog & Hl).
        exists r, w', (l1 ++ l)%list. split; [exact Hm |].
        split; [rewrite Hlog; rewrite <- app_assoc; reflexivity |].
        apply Forall_app; split; [apply silent_loads; exact Hl1 | exact Hl].
      * destruct (loadGaps_run e (g :: gs) net sta loc cha
                               (mkWorld d wf (log ++ l1)))
          as (r2 & l2 & Hgaps & Hl2 & _ & Hr2).
        simpl in Hgaps. unfold bind at 1. rewrite Hgaps.
        assert (Hs12 : silent (l1 ++ l2)).
        { apply Forall_app; split;
            [apply silent_loads; exact Hl1 | apply silent_fetches; exact Hl2]. }
        destruct Hr2 as [-> | (gaps & -> & Hne)].
        { eexists; eexists; exists (l1 ++ l2)%list.
          split; [reflexivity |].
          split; [simpl; rewrite <- app_assoc; reflexivity | exact Hs12]. }
        destruct (stream ++ gaps)%list as [| t0 ts] eqn:Eapp.
        { apply app_eq_nil in Eapp. tauto. }
        destruct (merge_and_pickle_silent cha loc d wf ((log ++ l1) ++ l2)
                                          (t0 :: ts))
          as (r & w' & l & Hm & Hlog & Hl).
        exists r, w', ((l1 ++ l2) ++ l)%list. split; [exact Hm |].
        split; [rewrite Hlog, <- !app_assoc; reflexivity |].
        apply Forall_app; split; assumption.
Qed.

Lemma load_all_empty (times : list fname) (w : world) :
  (forall f, In f times -> lookup_file f (w_dir w) = Some []) ->
  load_all times w
  = (Ok (map (fun _ => []) times),
     mkWorld (w_dir w) (w_waveforms w) (w_log w ++ map EvLoad times)).
Proof.
  revert w. induction times as [| t times IH]; intros w Hall; simpl.
  - rewrite app_nil_r. destruct w; reflexivity.
  - unfold bind at 1. unfold load_pickle, bind, emit, get_dir; simpl.
    rewrite (Hall t) by (left; reflexivity). simpl.
    rewrite IH by (intros f Hf; simpl; apply Hall; right; exact Hf).
    simpl. rewrite <- app_assoc. reflexivity.
Qed.

Lemma concat_empties {A B} (l : list A) :
  concat (map (fun _ => @nil B) l) = [].
Proof. induction l; simpl; auto. Qed.

Lemma fetch_frames_empty (net sta loc cha : string) (frames : list (Q * Q))
      (w : world) :
  (forall t0 t1, seishub_getPreview e net sta loc cha t0 t1 = []) ->
  fetch_frames e net sta loc cha frames w
  = (Ok [],
     mkWorld (w_dir w) (w_waveforms w)
             (w_log w ++ map (fun fr => EvFetch (Some (fst fr)) (Some (snd fr)))
                             frames)).
Proof.
  intros Hnone. revert w.
  induction frames as [| fr frames IH]; intros w; simpl.
  - rewrite app_nil_r. destruct w; reflexivity.
  - unfold bind at 1. unfold fetch, bind, emit, ret; simpl.
    rewrite IH, Hnone. simpl. rewrite <- app_assoc. reflexivity.
Qed.

(** C4 on the code. When the intersecting cache files hold no trace,
    some frame is missing and the fetch collaborator answers every
    frame with an empty stream, the request neither reports nor
    returns: after the loads and the fetches [loadGaps] raises
    [NameError] at [Stream()], before the emptiness test is reached. *)
Theorem nodata_raises_NameError
        (net sta loc cha id : string) (d : directory)
        (first : fname) (others : list fname) :
  let times := first :: others in
  let missing := missing_time_frames e first times in
  filter (intersects e) (filter (wanted cha loc) (map fst d)) = times ->
  (forall f, In f times -> lookup_file f d = Some []) ->
  missing <> [] ->
  (forall t0 t1, seishub_getPreview e net sta loc cha t0 t1 = []) ->
  getWaveform C e net sta loc cha id (start d)
  = (Raise NameError,
     mkWorld d []
             (map EvLoad times
                  ++ map (fun fr => EvFetch (Some (fst fr)) (Some (snd fr)))
                         missing)).
Proof.
  intros times missing Htimes Hcache Hmissing Hfetch.
  rewrite (getWaveform_cached C e net sta loc cha id (start d) first others
                              Htimes).
  unfold assemble. unfold bind at 1. unfold loadFiles. unfold bind at 1.
  rewrite (load_all_empty (first :: others)) by exact Hcache.
  cbn [map]. rewrite concat_empties.
  fold times. fold missing.
  destruct missing as [| g gs] eqn:Em; [congruence |].
  unfold ret at 1. cbv beta iota.
  unfold bind at 1. unfold loadGaps. unfold bind at 1.
  rewrite fetch_frames_empty by exact Hfetch.
  reflexivity.
Qed.

End Report.

(** ** The test-suite's series *)

(** [test_addOverlapsDefaultMethod], cases 1, 2, 4 and 6. *)
Example add_overlap_differing :
  result_cells (add (series 0 Float64 (zeros 7)) (series 5 Float64 (ones 7)))
  = (zeros 5 ++ masked_filler 2 ++ ones 5)%list
  /\ result_cells (add (series 5 Float64 (ones 7))
                       (series 0 Float64 (zeros 7)))
     = (zeros 5 ++ masked_filler 2 ++ ones 5)%list.
Proof. split; vm_compute; reflexivity. Qed.

Example add_overlap_same :
  result_cells (add (series 0 Float64 (zeros 7)) (series 5 Float64 (zeros 7)))
  = zeros 12.
Proof. vm_compute. reflexivity. Qed.

Example add_contained_differing :
  result_cells (add (series 0 Float64 (zeros 10)) (series 5 Float64 (ones 2)))
  = (zeros 5 ++ masked_filler 2 ++ zeros 3)%list
  /\ result_cells (add (series 5 Float64 (ones 2))
                       (series 0 Float64 (zeros 10)))
     = (zeros 5 ++ masked_filler 2 ++ zeros 3)%list.
Proof. split; vm_compute; reflexivity. Qed.

Example add_same_span_differing :
  result_cells (add (series 0 Float64 (zeros 10)) (series 0 Float64 (ones 10)))
  = masked_filler 10.
Proof. vm_compute. reflexivity. Qed.

(** [test_addWithDifferentDatatypesOrID], case 1. *)
Example add_different_dtypes :
  add (series 0 Int32 (zeros 5)) (series 0 Float32 (zeros 5))
  = inl IncompatibleSeries
  /\ add (series 0 Float32 (zeros 5)) (series 0 Int32 (zeros 5))
     = inl IncompatibleSeries.
Proof. split; reflexivity. Qed.

(** [test_trimFloatingPoint]: eleven samples cut at 2.1 and 7.1. *)
Example trim_cuts_at_nearest_sample :
  let r := trim (Abs (21 # 10)) (Abs (71 # 10)) false true
                (series 0 Int64 (cells_of [0; 1; 2; 3; 4; 5; 6; 7; 8; 9; 10]%Z))
  in data r = cells_of [2; 3; 4; 5; 6; 7]%Z
     /\ starttime r == 2 /\ endtime r == 7.
Proof. vm_compute. repeat split; reflexivity. Qed.

(** ** Instances of the theorems *)

Lemma overlap_agrees_or_is_masked_witness :
  region (zeros 5 ++ masked_filler 2 ++ ones 5) 5 2 = masked_filler 2.
Proof.
  pose (a := series 0 Float64 (zeros 7)).
  pose (b := series 5 Float64 (ones 7)).
  pose (r := series 0 Float64 (zeros 5 ++ masked_filler 2 ++ ones 5)).
  assert (Hadd : add a b = inr r) by (vm_compute; reflexivity).
  assert (Hd : (sample_offset (earlier a b) (later a b)
                < npts (earlier a b))%nat)
    by (apply Nat.ltb_lt; vm_compute; reflexivity).
  destruct (overlap_agrees_or_is_masked a b r Hadd Hd) as (_ & Hdiff & _).
  apply Hdiff. intros Hsame. apply cells_eqb_iff in Hsame.
  vm_compute in Hsame. discriminate.
Defined.

(** Three samples at 1 Hz from 0, trimmed to [0, 2]. *)
Lemma trim_to_own_bounds_is_identity_witness :
  exists h' a' r,
    trim_at [series 0 Int64 (cells_of [0; 1; 2]%Z)] 0 (Abs 0) (Abs (0 + 2 / 1))
            false true = Some (h', a')
    /\ a' <> 0%nat
    /\ nth_error h' 0 = Some (series 0 Int64 (cells_of [0; 1; 2]%Z))
    /\ nth_error h' a' = Some r
    /\ data r = cells_of [0; 1; 2]%Z.
Proof.
  destruct (trim_to_own_bounds_is_identity
              [series 0 Int64 (cells_of [0; 1; 2]%Z)] 0
              (series 0 Int64 (cells_of [0; 1; 2]%Z)) false true)
    as (h' & a' & r & H1 & H2 & H3 & H4 & _ & H6 & _).
  - reflexivity.
  - unfold valid; simpl. lra.
  - exists h', a', r. repeat split; assumption.
Defined.

(** The first request fetches and persists 301 samples; the second is
    served from the file. *)
Lemma repeated_get_fetches_nothing_witness :
  exists r2 w2 l,
    getWaveform core0 env_first "BW" "FUR" blank "EHZ" "BW.FUR..EHZ"
      (snd (getWaveform core0 env_first "BW" "FUR" blank "EHZ" "BW.FUR..EHZ"
                        (start [])))
    = (r2, w2)
    /\ w_log w2
       = ([EvFetch None None; EvWrite (mkName "EHZ[]" 0 300 true)] ++ l)%list
    /\ Forall (fun ev => ~ is_fetch ev) l.
Proof.
  apply (repeated_get_fetches_nothing core0 env_first
           "BW" "FUR" blank "EHZ" "BW.FUR..EHZ" []
           (ehz 0 (zeros 301)) []).
  - vm_compute. reflexivity.
  - apply Nat.ltb_lt. vm_compute. reflexivity.
  - vm_compute. discriminate.
  - vm_compute. discriminate.
Defined.

(** The faint stream with a logarithmic base of 10. *)
Lemma processStream_log_scale_never_returns_witness :
  processStream env_log faint = Raise AttributeError.
Proof.
  destruct (processStream_log_scale_never_returns env_log faint)
    as [_ H].
  - reflexivity.
  - apply (H (ehz 0 (cells_of [0; 1000; 0; 7; 8; 7; 3; 3; 3]%Z
                     ++ masked_filler 3))).
    + vm_compute. reflexivity.
    + split; [apply Nat.ltb_lt | apply Nat.leb_le]; vm_compute; reflexivity.
Defined.

Example faint_run :
  option_map (fun r => red_data r)
             (match processStream env_lin faint with
              | Ok r => Some r
              | Raise _ => None
              end)
  = Some [Num (100000 # 1000); Num (1 # 2); Num (0 # 1000); Num 0].
Proof. vm_compute. reflexivity. Qed.

(** The faint stream on a linear axis: the wiggle is raised to 0.5, the
    padded bucket stays 0. *)
Lemma faint_values_raised_gaps_kept_witness :
  nth_error [Num (100000 # 1000); Num (1 # 2); Num (0 # 1000); Num 0] 1
  = Some (Num (1 # 2))
  /\ nth_error [Num (100000 # 1000); Num (1 # 2); Num (0 # 1000); Num 0] 3
     = Some (Num 0).
Proof.
  destruct (faint_values_raised_gaps_kept env_lin faint
              (mkReduced
                 (ehz 0 (cells_of [0; 1000; 0; 7; 8; 7; 3; 3; 3]%Z
                         ++ masked_filler 3))
                 [Num (100000 # 1000); Num (1 # 2); Num (0 # 1000); Num 0]))
    as (tr & Htr & _ & Hall).
  - vm_compute. reflexivity.
  - vm_compute in Htr. injection Htr as <-. split.
    + destruct (Hall 1%nat) as (Hfaint & _ & _).
      apply (Hfaint (1 * (100 / 1000))).
      * vm_compute. reflexivity.
      * split; vm_compute; reflexivity.
    + destruct (Hall 3%nat) as (_ & _ & Hgap).
      apply (Hgap [None; None; None]).
      * vm_compute. reflexivity.
      * repeat constructor.
Defined.

(** An empty cached stream, the frame (9, 20) missing, nothing fetched. *)
Lemma nodata_raises_NameError_witness :
  getWaveform core0 env_nodata "BW" "FUR" blank "EHZ" "BW.FUR..EHZ"
              (start dir_nodata)
  = (Raise NameError,
     mkWorld dir_nodata []
             [EvLoad (mkName "EHZ[]" 0 10 true);
              EvFetch (Some (10 - 1)) (Some 20)]).
Proof.
  apply (nodata_raises_NameError core0 env_nodata
           "BW" "FUR" blank "EHZ" "BW.FUR..EHZ" dir_nodata
           (mkName "EHZ[]" 0 10 true) []).
  - vm_compute. reflexivity.
  - intros f [<- | []]. reflexivity.
  - vm_compute. discriminate.
  - reflexivity.
Defined.

(* ================================================================== *)
(** * Part III. Further properties of the handler *)
(* ================================================================== *)

(** ** Every run of [getWaveform] *)

Section Outcomes.

Variable C : Core.
Variable e : Env.

Lemma listed_is_stored (f : fname) (d : directory) :
  In f (map fst d) -> exists s, lookup_file f d = Some s.
Proof.
  induction d as [| [g s] d IH]; simpl; [tauto |].
  intros [-> | H].
  - rewrite fname_eqb_refl. eauto.
  - destruct (fname_eqb f g); eauto.
Qed.

(** Files named by the listing always load. *)
Lemma load_all_listed (times : list fname) (w : world) :
  (forall f, In f times -> In f (map fst (w_dir w))) ->
  load_all times w
  = (Ok (map (stored (w_dir w)) times),
     mkWorld (w_dir w) (w_waveforms w) (w_log w ++ map EvLoad times)).
Proof.
  revert w. induction times as [| t times IH]; intros w Hall; simpl.
  - rewrite app_nil_r. destruct w; reflexivity.
  - unfold bind at 1. unfold load_pickle, bind, emit, get_dir; simpl.
    destruct (listed_is_stored t (w_dir w)) as [s Hs];
      [apply Hall; left; reflexivity |].
    unfold stored at 1. rewrite Hs. simpl.
    rewrite IH by (intros f Hf; simpl; apply Hall; right; exact Hf).
    simpl. rewrite <- app_assoc. reflexivity.
Qed.

Lemma fetch_frames_exact (net sta loc cha : string) (frames : list (Q * Q))
      (w : world) :
  fetch_frames e net sta loc cha frames w
  = (Ok (gap_streams e net sta loc cha frames),
     mkWorld (w_dir w) (w_waveforms w)
             (w_log w ++ map frame_event frames)).
Proof.
  revert w. induction frames as [| fr frames IH]; intros w; simpl.
  - rewrite app_nil_r. destruct w; reflexivity.
  - unfold bind at 1. unfold fetch, bind, emit, ret; simpl.
    rewrite IH. simpl. rewrite <- app_assoc.
    destruct (seishub_getPreview e net sta loc cha
                (Some (fst fr)) (Some (snd fr))); reflexivity.
Qed.

Lemma gap_streams_nonempty (net sta loc cha : string)
      (frames : list (Q * Q)) :
  Forall (fun s => s <> []) (gap_streams e net sta loc cha frames).
Proof.
  induction frames as [| fr frames IH]; simpl; [constructor |].
  destruct (seishub_getPreview e net sta loc cha
              (Some (fst fr)) (Some (snd fr))); [exact IH |].
  constructor; [discriminate | exact IH].
Qed.

Lemma loadGaps_exact (frames : list (Q * Q)) (net sta loc cha : string)
      (w : world) :
  loadGaps e frames net sta loc cha w
  = (match gap_streams e net sta loc cha frames with
     | [] => Raise NameError
     | g :: gs => Ok (g ++ concat gs)%list
     end,
     mkWorld (w_dir w) (w_waveforms w)
             (w_log w ++ map frame_event frames)).
Proof.
  unfold loadGaps. unfold bind at 1. rewrite fetch_frames_exact.
  destruct (gap_streams e net sta loc cha frames); reflexivity.
Qed.

(** The run of [getWaveform] when some file of the channel intersects
    the window, step by step. *)
Lemma getWaveform_cached_run (net sta loc cha id : string) (d : directory)
      (wf : list (string * entry)) (log : list event)
      (first : fname) (others : list fname) :
  filter (loaded_for e cha loc) (map fst d) = first :: others ->
  let times := first :: others in
  let loaded := concat (map (stored d) times) in
  let missing := missing_time_frames e first times in
  let log1 := (log ++ map EvLoad times)%list in
  getWaveform C e net sta loc cha id (mkWorld d wf log)
  = match missing with
    | [] => merge_and_pickle C cha loc times loaded (mkWorld d wf log1)
    | _ :: _ =>
        let log2 := (log1 ++ map frame_event missing)%list in
        match gap_streams e net sta loc cha missing with
        | [] => (Raise NameError, mkWorld d wf log2)
        | g :: gs =>
            merge_and_pickle C cha loc times (loaded ++ g ++ concat gs)
                             (mkWorld d wf log2)
        end
    end.
Proof.
  intros Htimes times loaded missing log1.
  assert (Hlisted : forall f, In f times -> In f (map fst d)).
  { intros f Hf. unfold times in Hf. rewrite <- Htimes in Hf.
    apply filter_In in Hf. tauto. }
  rewrite (getWaveform_cached C e net sta loc cha id _ first others)
    by (simpl; rewrite times_loaded_for; exact Htimes).
  unfold assemble. unfold bind at 1. unfold loadFiles. unfold bind at 1.
  rewrite (load_all_listed (first :: others) (mkWorld d wf log) Hlisted).
  cbn [w_dir w_waveforms w_log map]. unfold ret at 1. cbv iota beta.
  change (stored d first ++ concat (map (stored d) others))%list with loaded.
  fold times. fold missing. fold log1.
  destruct missing as [| fr frs] eqn:Em; [reflexivity |].
  unfold bind at 1. rewrite loadGaps_exact.
  cbn [w_dir w_waveforms w_log].
  pose proof (gap_streams_nonempty net sta loc cha (fr :: frs)) as Hne.
  destruct (gap_streams e net sta loc cha (fr :: frs)) as [| g gs];
    [reflexivity |].
  inversion Hne as [| ? ? Hg _]; subst.
  destruct (loaded ++ g ++ concat gs)%list as [| t0 ts] eqn:Eapp.
  - apply app_eq_nil in Eapp. destruct Eapp as [_ Eapp].
    apply app_eq_nil in Eapp. tauto.
  - reflexivity.
Qed.

Lemma kept_all (cha loc : string) (d : directory) :
  filter (wanted cha loc) (map fst d) = [] -> kept e cha loc d = d.
Proof.
  intros H. unfold kept.
  induction d as [| [f s] d IH]; simpl in *; [reflexivity |].
  unfold loaded_for at 1. simpl.
  destruct (wanted cha loc f); [discriminate |]. simpl.
  rewrite IH by exact H. reflexivity.
Qed.

Lemma not_mutation_loads (fs : list fname) :
  Forall (fun ev => ~ is_mutation ev) (map EvLoad fs).
Proof.
  apply Forall_forall. intros ev Hev. apply in_map_iff in Hev.
  destruct Hev as (f & <- & _). simpl. tauto.
Qed.

Lemma not_mutation_frames (frs : list (Q * Q)) :
  Forall (fun ev => ~ is_mutation ev) (map frame_event frs).
Proof.
  apply Forall_forall. intros ev Hev. apply in_map_iff in Hev.
  destruct Hev as (f & <- & _). simpl. tauto.
Qed.

Lemma silent_frames (frs : list (Q * Q)) : silent (map frame_event frs).
Proof.
  apply Forall_forall. intros ev Hev. apply in_map_iff in Hev.
  destruct Hev as (f & <- & _). discriminate.
Qed.

Lemma silent_load_events (fs : list fname) : silent (map EvLoad fs).
Proof.
  apply Forall_forall. intros ev Hev. apply in_map_iff in Hev.
  destruct Hev as (f & <- & _). discriminate.
Qed.

(** What [merge_and_pickle] leaves, after a quiet prefix [l0]. *)
Lemma merge_and_pickle_cases (cha loc : string) (d : directory)
      (wf : list (string * entry)) (log l0 : list event) (stream : Stream) :
  silent l0 ->
  Forall (fun ev => ~ is_mutation ev) l0 ->
  exists r w' l,
    merge_and_pickle C cha loc (filter (loaded_for e cha loc) (map fst d))
                     stream (mkWorld d wf (log ++ l0)) = (r, w')
    /\ w_waveforms w' = wf
    /\ w_log w' = (log ++ l)%list
    /\ silent l
    /\ ((w_dir w' = d /\ Forall (fun ev => ~ is_mutation ev) l
         /\ quiet_result r)
        \/ (exists tr rest,
               r = Ok (Some (tr :: rest)) /\ (200 < npts tr)%nat
               /\ w_dir w' = store_file (cache_name C cha loc tr) (tr :: rest)
                                        (kept e cha loc d))).
Proof.
  intros Hs Hq. rewrite merge_and_pickle_run.
  destruct (Stream_merge C stream) as [| tr rest].
  - eexists; eexists; exists l0. repeat split; auto.
    left. repeat split; auto. unfold quiet_result; auto.
  - destruct (200 <? npts tr)%nat eqn:E.
    + eexists; eexists.
      exists (l0 ++ map EvRemove (filter (loaded_for e cha loc) (map fst d))
                 ++ [EvWrite (cache_name C cha loc tr)])%list.
      split; [reflexivity |]. split; [reflexivity |].
      split; [simpl; rewrite <- !app_assoc; reflexivity |].
      split.
      * apply Forall_app; split; [exact Hs |].
        apply Forall_app; split; [apply silent_removes |].
        constructor; [discriminate | constructor].
      * right. exists tr, rest. apply Nat.ltb_lt in E. auto.
    + eexists; eexists; exists l0. repeat split; auto.
      left. repeat split; auto. unfold quiet_result.
      right; left. exists tr, rest. apply Nat.ltb_ge in E. auto.
Qed.

(** Every run, in one statement: the dictionary is left alone, the
    trace grows, no report is made, and either the directory is left as
    it was, or a stream of more than 200 samples is returned and stored
    next to the files that were not loaded. *)
Lemma getWaveform_cases (net sta loc cha id : string) (w : world) :
  exists r w' l,
    getWaveform C e net sta loc cha id w = (r, w')
    /\ w_waveforms w' = w_waveforms w
    /\ w_log w' = (w_log w ++ l)%list
    /\ silent l
    /\ ((w_dir w' = w_dir w /\ Forall (fun ev => ~ is_mutation ev) l
         /\ quiet_result r)
        \/ (exists tr rest,
               r = Ok (Some (tr :: rest)) /\ (200 < npts tr)%nat
               /\ w_dir w' = store_file (cache_name C cha loc tr) (tr :: rest)
                                        (kept e cha loc (w_dir w)))).
Proof.
  destruct w as [d wf log]. simpl w_dir. simpl w_waveforms. simpl w_log.
  destruct (filter (wanted cha loc) (map fst d)) as [| f0 files] eqn:Efiles.
  - rewrite getWaveform_uncached by exact Efiles.
    rewrite getPreview_run.
    destruct (head_float32 (seishub_getPreview e net sta loc cha None None))
      as [| tr rest].
    + eexists; eexists; exists [EvFetch None None].
      repeat split; [constructor; [discriminate | constructor] |].
      left. repeat split; [| unfold quiet_result; auto].
      constructor; [simpl; tauto | constructor].
    + destruct (200 <? npts tr)%nat eqn:E.
      * eexists; eexists;
          exists [EvFetch None None; EvWrite (cache_name C cha loc tr)].
        split; [reflexivity |]. split; [reflexivity |].
        split; [simpl; rewrite <- app_assoc; reflexivity |].
        split; [repeat constructor; discriminate |].
        right. exists tr, rest. apply Nat.ltb_lt in E.
        rewrite (kept_all cha loc d Efiles). auto.
      * eexists; eexists; exists [EvFetch None None].
        repeat split; [constructor; [discriminate | constructor] |].
        left. repeat split.
        -- constructor; [simpl; tauto | constructor].
        -- unfold quiet_result. right; left. exists tr, rest.
           apply Nat.ltb_ge in E. auto.
  - destruct (filter (loaded_for e cha loc) (map fst d))
      as [| first others] eqn:Etimes.
    + rewrite getWaveform_no_times;
        [| simpl; rewrite Efiles; discriminate
         | simpl; rewrite times_loaded_for; exact Etimes].
      eexists; eexists; exists []. rewrite app_nil_r.
      repeat split; [constructor |].
      left. repeat split; [constructor | unfold quiet_result; auto].
    + rewrite (getWaveform_cached_run net sta loc cha id d wf log
                                      first others Etimes).
      cbv zeta. rewrite <- Etimes.
      destruct (missing_time_frames e first
                  (filter (loaded_for e cha loc) (map fst d)))
        as [| fr frs].
      * apply merge_and_pickle_cases;
          [apply silent_load_events | apply not_mutation_loads].
      * destruct (gap_streams e net sta loc cha (fr :: frs)) as [| g gs].
        -- eexists; eexists.
           exists (map EvLoad (filter (loaded_for e cha loc) (map fst d))
                       ++ map frame_event (fr :: frs))%list.
           split; [reflexivity |]. split; [reflexivity |].
           split; [simpl; rewrite <- app_assoc; reflexivity |].
           split; [apply Forall_app; split;
                   [apply silent_load_events | apply silent_frames] |].
           left. repeat split; [| unfold quiet_result; auto].
           apply Forall_app; split;
             [apply not_mutation_loads | apply not_mutation_frames].
        -- rewrite <- app_assoc.
           apply merge_and_pickle_cases.
           ++ apply Forall_app; split;
                [apply silent_load_events | apply silent_frames].
           ++ apply Forall_app; split;
                [apply not_mutation_loads | apply not_mutation_frames].
Qed.

End Outcomes.

(** ** What a request does to the cache, and what it asks for *)

Section Requests.

Variable C : Core.
Variable e : Env.

(** X1. A call of [getWaveform] never returns a stream without trace:
    what it returns is [None] or a stream with at least one trace, so
    that the test [if not stream] of [getItem] is true for [None] only.
    Whether it returns or raises, it does not make the no-data report
    (line 149 is never reached) and leaves [self.waveforms] as it
    was. *)
Theorem getWaveform_returns_no_empty_stream
        (net sta loc cha id : string) (w : world) :
  let run := getWaveform C e net sta loc cha id w in
  fst run <> Ok (Some [])
  /\ (exists l, w_log (snd run) = (w_log w ++ l)%list /\ silent l)
  /\ w_waveforms (snd run) = w_waveforms w.
Proof.
  cbv zeta.
  destruct (getWaveform_cases C e net sta loc cha id w)
    as (r & w' & l & Hrun & Hwf & Hlog & Hs & Hcases).
  rewrite Hrun. simpl. split; [| split; [exists l; auto | exact Hwf]].
  destruct Hcases as [(_ & _ & [H | [(tr & rest & H & _) | [H | H]]])
                     | (tr & rest & H & _)]; rewrite H; discriminate.
Qed.


Lemma unwanted_kept (cha loc : string) (d : directory) :
  filter (fun x => negb (wanted cha loc (fst x))) (kept e cha loc d)
  = filter (fun x => negb (wanted cha loc (fst x))) d.
Proof.
  unfold kept. induction d as [| [f s] d IH]; simpl; [reflexivity |].
  unfold loaded_for at 1. simpl.
  destruct (wanted cha loc f) eqn:W; simpl.
  - destruct (intersects e f); simpl; [| rewrite W; simpl]; exact IH.
  - rewrite W. simpl. rewrite IH. reflexivity.
Qed.

Lemma unwanted_store (cha loc : string) (f : fname) (s : Stream)
      (d : directory) :
  wanted cha loc f = true ->
  filter (fun x => negb (wanted cha loc (fst x))) (store_file f s d)
  = filter (fun x => negb (wanted cha loc (fst x))) d.
Proof.
  intros W. induction d as [| [g s'] d IH]; simpl.
  - rewrite W. reflexivity.
  - destruct (fname_eqb f g) eqn:E; simpl.
    + apply fname_eqb_eq in E. subst g. rewrite W. reflexivity.
    + rewrite IH. reflexivity.
Qed.

(** X3. A request for one channel never touches the files of the
    station directory that are not cache files of that channel: they
    are all still there afterwards, in the same order and with the same
    content, however the request ends. *)
Theorem other_files_untouched (net sta loc cha id : string) (w : world) :
  filter (fun x => negb (wanted cha loc (fst x)))
         (w_dir (snd (getWaveform C e net sta loc cha id w)))
  = filter (fun x => negb (wanted cha loc (fst x))) (w_dir w).
Proof.
  destruct (getWaveform_cases C e net sta loc cha id w)
    as (r & w' & l & Hrun & Hwf & Hlog & Hs & Hcases).
  rewrite Hrun. simpl.
  destruct Hcases as [(Hd & _) | (tr & rest & _ & _ & Hd)]; rewrite Hd.
  - reflexivity.
  - rewrite unwanted_store by apply wanted_cache_name.
    apply unwanted_kept.
Qed.

Lemma names_store (f g : fname) (s : Stream) (d : directory) :
  In g (map fst (store_file f s d)) -> g = f \/ In g (map fst d).
Proof.
  induction d as [| [h s'] d IH]; simpl.
  - intros [<- | []]. auto.
  - destruct (fname_eqb f h); simpl; intros [<- | H]; auto.
    destruct (IH H); auto.
Qed.

Lemma NoDup_store (f : fname) (s : Stream) (d : directory) :
  NoDup (map fst d) -> NoDup (map fst (store_file f s d)).
Proof.
  induction d as [| [h s'] d IH]; simpl; intros H.
  - constructor; [simpl; tauto | constructor].
  - inversion H as [| ? ? Hnotin Hrest]; subst.
    destruct (fname_eqb f h) eqn:E; simpl.
    + constructor; assumption.
    + constructor; [| apply IH; exact Hrest].
      intros Hin. apply names_store in Hin. destruct Hin as [-> | Hin].
      * rewrite fname_eqb_refl in E. discriminate.
      * contradiction.
Qed.

Lemma NoDup_kept (cha loc : string) (d : directory) :
  NoDup (map fst d) -> NoDup (map fst (kept e cha loc d)).
Proof.
  unfold kept. induction d as [| [h s'] d IH]; simpl; intros H;
    [constructor |].
  inversion H as [| ? ? Hnotin Hrest]; subst.
  destruct (negb (loaded_for e cha loc h)); simpl; [| apply IH; exact Hrest].
  constructor; [| apply IH; exact Hrest].
  intros Hin. apply Hnotin. apply in_map_iff in Hin.
  destruct Hin as (x & Hx & Hin). apply filter_In in Hin.
  apply in_map_iff. exists x. tauto.
Qed.

(** X4. File names stay unique: if no two files of the station
    directory bear the same name before a request, none do after it. *)
Theorem names_stay_unique (net sta loc cha id : string) (w : world) :
  NoDup (map fst (w_dir w)) ->
  NoDup (map fst (w_dir (snd (getWaveform C e net sta loc cha id w)))).
Proof.
  intros H.
  destruct (getWaveform_cases C e net sta loc cha id w)
    as (r & w' & l & Hrun & Hwf & Hlog & Hs & Hcases).
  rewrite Hrun. simpl.
  destruct Hcases as [(Hd & _) | (tr & rest & _ & _ & Hd)]; rewrite Hd.
  - exact H.
  - apply NoDup_store, NoDup_kept, H.
Qed.

(** The descriptors of the channel after a compaction, among the names
    as they were written. *)
Lemma descriptors_after_compaction
      (net sta loc cha id : string) (w w' : world)
      (tr : Trace) (rest : Stream) :
  getWaveform C e net sta loc cha id w = (Ok (Some (tr :: rest)), w') ->
  (200 < npts tr)%nat ->
  filter (intersects e) (filter (wanted cha loc) (map fst (w_dir w')))
  = if intersects e (cache_name C cha loc tr)
    then [cache_name C cha loc tr] else [].
Proof.
  intros Hrun Hn.
  destruct (getWaveform_persisted C e net sta loc cha id _ _ _ _ Hrun Hn)
    as (d' & Hdir & Hd').
  rewrite times_loaded_for, Hdir.
  rewrite (store_file_filter (loaded_for e cha loc) _ _ d' Hd').
  unfold loaded_for. rewrite wanted_cache_name. reflexivity.
Qed.

Lemma as_listed_plain (f : fname) : plain (f_head f) -> as_listed f = f.
Proof.
  unfold plain, as_listed. intros ->. destruct f; reflexivity.
Qed.

Lemma listing_of_plain_names (fs : list fname) :
  Forall (fun f => plain (f_head f)) fs -> map as_listed fs = fs.
Proof.
  induction 1 as [| f fs Hf _ IH]; simpl; [reflexivity |].
  rewrite (as_listed_plain f Hf), IH. reflexivity.
Qed.

(** A request adds one name at most, the one it writes. *)
Lemma names_after_request (net sta loc cha id : string) (w : world)
      (g : fname) :
  In g (map fst (w_dir (snd (getWaveform C e net sta loc cha id w)))) ->
  In g (map fst (w_dir w))
  \/ exists tr, g = cache_name C cha loc tr.
Proof.
  destruct (getWaveform_cases C e net sta loc cha id w)
    as (r & w' & l & Hrun & Hwf & Hlog & Hs & Hcases).
  rewrite Hrun. simpl.
  destruct Hcases as [(Hd & _) | (tr & rest & _ & _ & Hd)]; rewrite Hd.
  - auto.
  - intros Hin. apply names_store in Hin. destruct Hin as [-> | Hin].
    + right. exists tr. reflexivity.
    + left. apply in_map_iff in Hin. destruct Hin as (x & Hx & Hin).
      unfold kept in Hin. apply filter_In in Hin.
      apply in_map_iff. exists x. tauto.
Qed.

(** A channel or location code with a separator in it: the name the
    handler writes is not a cache file of the channel for the next
    listing. *)
Lemma written_name_not_recognised (cha loc : string) (tr : Trace) :
  ~ plain (file_key cha loc) ->
  wanted cha loc (as_listed (cache_name C cha loc tr)) = false.
Proof.
  intros Hkey. unfold wanted, as_listed, cache_name. simpl.
  destruct (String.eqb (split_head (file_key cha loc)) (file_key cha loc))
    eqn:E; [| reflexivity].
  apply String.eqb_eq in E. contradiction.
Qed.

(** X5. After a request that returned a stream of more than 200
    samples, the next listing of the station directory shows, among the
    cache files of the channel that intersect the window, the new
    descriptor alone (if its bounds as written intersect the window)
    and none of the descriptors that were loaded. This is so when
    neither the channel and location codes nor the heads of the names
    in the directory contain the separator [--]; with a separator in
    the codes the handler does not find the file it wrote
    ([written_name_not_recognised]). *)
Theorem compaction_leaves_one_descriptor
        (net sta loc cha id : string) (w : world)
        (tr : Trace) (rest : Stream) :
  let run := getWaveform C e net sta loc cha id w in
  plain (file_key cha loc) ->
  Forall (fun f => plain (f_head f)) (map fst (w_dir w)) ->
  fst run = Ok (Some (tr :: rest)) ->
  (200 < npts tr)%nat ->
  filter (intersects e)
         (filter (wanted cha loc)
                 (map as_listed (map fst (w_dir (snd run)))))
  = if intersects e (cache_name C cha loc tr)
    then [cache_name C cha loc tr] else [].
Proof.
  cbv zeta. intros Hkey Hdir Hres Hn.
  assert (Hnames : Forall (fun f => plain (f_head f))
                     (map fst (w_dir (snd (getWaveform C e net sta loc cha
                                                       id w))))).
  { apply Forall_forall. intros g Hg.
    apply names_after_request in Hg. destruct Hg as [Hg | (tr' & ->)].
    - rewrite Forall_forall in Hdir. apply Hdir. exact Hg.
    - exact Hkey. }
  rewrite (listing_of_plain_names _ Hnames).
  destruct (getWaveform C e net sta loc cha id w) as [r w'] eqn:Hrun.
  simpl in *. subst r.
  exact (descriptors_after_compaction net sta loc cha id w w' tr rest
                                      Hrun Hn).
Qed.

Lemma fetches_app (l1 l2 : list event) :
  fetches (l1 ++ l2) = (fetches l1 ++ fetches l2)%list.
Proof. apply filter_app. Qed.

Lemma fetches_loads (fs : list fname) : fetches (map EvLoad fs) = [].
Proof. induction fs; simpl; auto. Qed.

Lemma fetches_removes (fs : list fname) : fetches (map EvRemove fs) = [].
Proof. induction fs; simpl; auto. Qed.

Lemma fetches_frames (frs : list (Q * Q)) :
  fetches (map frame_event frs) = map frame_event frs.
Proof. induction frs; simpl; [| rewrite IHfrs]; reflexivity. Qed.

Lemma fetches_merge_and_pickle (cha loc : string) (d : directory)
      (wf : list (string * entry)) (log : list event) (stream : Stream)
      (times : list fname) :
  filter (loaded_for e cha loc) (map fst d) = times ->
  fetches (w_log (snd (merge_and_pickle C cha loc times stream
                                        (mkWorld d wf log))))
  = fetches log.
Proof.
  intros <-. rewrite merge_and_pickle_run.
  destruct (Stream_merge C stream) as [| tr rest]; [reflexivity |].
  destruct (200 <? npts tr)%nat; [| reflexivity].
  simpl. rewrite !fetches_app, fetches_removes. simpl.
  rewrite !app_nil_r. reflexivity.
Qed.

(** The fetches of a request served from cached files. *)
Lemma cached_fetches (net sta loc cha id : string) (d : directory)
      (wf : list (string * entry)) (log : list event)
      (first : fname) (others : list fname) :
  filter (loaded_for e cha loc) (map fst d) = first :: others ->
  fetches (w_log (snd (getWaveform C e net sta loc cha id
                                   (mkWorld d wf log))))
  = (fetches log
       ++ map frame_event
              (missing_time_frames e first (first :: others)))%list.
Proof.
  intros Htimes.
  rewrite (getWaveform_cached_run C e net sta loc cha id d wf log
                                  first others Htimes).
  cbv zeta.
  destruct (missing_time_frames e first (first :: others)) as [| fr frs].
  - rewrite (fetches_merge_and_pickle _ _ _ _ _ _ _ Htimes).
    rewrite fetches_app, fetches_loads, !app_nil_r. reflexivity.
  - destruct (gap_streams e net sta loc cha (fr :: frs)) as [| g gs].
    + cbn [snd w_log].
      rewrite !fetches_app, fetches_loads, fetches_frames, app_nil_r.
      reflexivity.
    + rewrite (fetches_merge_and_pickle _ _ _ _ _ _ _ Htimes).
      rewrite !fetches_app, fetches_loads, fetches_frames, app_nil_r.
      reflexivity.
Qed.

(** X6. When files of the channel intersect the window, the fetch
    collaborator is called once for each missing frame, in order and
    with the frame's two bounds, and for nothing else: the trace of
    fetches grows by exactly the list of frames. *)
Theorem one_fetch_per_missing_frame
        (net sta loc cha id : string) (w : world)
        (first : fname) (others : list fname) :
  filter (intersects e) (filter (wanted cha loc) (map fst (w_dir w)))
  = first :: others ->
  fetches (w_log (snd (getWaveform C e net sta loc cha id w)))
  = (fetches (w_log w)
       ++ map frame_event
              (missing_time_frames e first (first :: others)))%list.
Proof.
  intros Htimes. rewrite times_loaded_for in Htimes.
  destruct w as [d wf log].
  apply (cached_fetches net sta loc cha id d wf log first others Htimes).
Qed.

(** X7. With no cache file of the channel in the directory, the fetch
    collaborator is called exactly once and without time bounds (the
    requested window is not passed on); the request returns [None]
    exactly when the answer has no trace, and leaves the directory as it
    was then. *)
Theorem uncached_request_fetches_unbounded
        (net sta loc cha id : string) (w : world) :
  filter (wanted cha loc) (map fst (w_dir w)) = [] ->
  let run := getWaveform C e net sta loc cha id w in
  fetches (w_log (snd run)) = (fetches (w_log w) ++ [EvFetch None None])%list
  /\ (fst run = Ok None
      <-> seishub_getPreview e net sta loc cha None None = [])
  /\ (fst run = Ok None -> w_dir (snd run) = w_dir w).
Proof.
  intros Hfiles. cbv zeta.
  rewrite getWaveform_uncached by exact Hfiles.
  destruct w as [d wf log]. rewrite getPreview_run.
  destruct (seishub_getPreview e net sta loc cha None None) as [| tr rest];
    simpl head_float32; cbv iota.
  - simpl. rewrite fetches_app. simpl. repeat split; auto.
  - destruct (200 <? npts (require_float32 tr))%nat; simpl;
      rewrite !fetches_app; simpl; rewrite ?app_nil_r;
      repeat split; auto; discriminate.
Qed.

Lemma gap_streams_none (net sta loc cha : string) (frames : list (Q * Q)) :
  (forall fr, In fr frames ->
              seishub_getPreview e net sta loc cha
                                 (Some (fst fr)) (Some (snd fr)) = []) ->
  gap_streams e net sta loc cha frames = [].
Proof.
  induction frames as [| fr frames IH]; intros H; simpl; [reflexivity |].
  rewrite (H fr) by (left; reflexivity).
  apply IH. intros fr' Hfr'. apply H. right. exact Hfr'.
Qed.

(** X8. When some frame is missing and the fetch collaborator has no
    trace for any of the missing frames, the request raises [NameError]
    after its loads and fetches, whatever the cached files hold: the
    cached part of the window is not returned, and the directory is as
    before. *)
Theorem unanswered_gaps_raise_NameError
        (net sta loc cha id : string) (w : world)
        (first : fname) (others : list fname) :
  let times := first :: others in
  let missing := missing_time_frames e first times in
  filter (intersects e) (filter (wanted cha loc) (map fst (w_dir w)))
  = times ->
  missing <> [] ->
  (forall fr, In fr missing ->
              seishub_getPreview e net sta loc cha
                                 (Some (fst fr)) (Some (snd fr)) = []) ->
  getWaveform C e net sta loc cha id w
  = (Raise NameError,
     mkWorld (w_dir w) (w_waveforms w)
             ((w_log w ++ map EvLoad times) ++ map frame_event missing)).
Proof.
  intros times missing Htimes Hmissing Hnone.
  rewrite times_loaded_for in Htimes. destruct w as [d wf log].
  rewrite (getWaveform_cached_run C e net sta loc cha id d wf log
                                  first others Htimes).
  cbv zeta. fold times. fold missing.
  destruct missing as [| fr frs] eqn:Em; [congruence |].
  rewrite gap_streams_none by exact Hnone. reflexivity.
Qed.

(** X9. Two descriptors that both intersect the window are never
    enough to serve it from the cache: a frame from the end of the first
    minus the buffer to the start of the second plus the buffer is
    fetched, also when the second starts where the first ends. *)
Theorem two_descriptors_always_fetch
        (net sta loc cha id : string) (w : world)
        (a b : fname) (others : list fname) :
  filter (intersects e) (filter (wanted cha loc) (map fst (w_dir w)))
  = a :: b :: others ->
  In (EvFetch (Some (f_t1 a - env_buffer e)) (Some (f_t0 b + env_buffer e)))
     (w_log (snd (getWaveform C e net sta loc cha id w))).
Proof.
  intros Htimes. rewrite times_loaded_for in Htimes.
  destruct w as [d wf log].
  assert (Hin : In (EvFetch (Some (f_t1 a - env_buffer e))
                            (Some (f_t0 b + env_buffer e)))
                   (fetches (w_log (snd (getWaveform C e net sta loc cha id
                                           (mkWorld d wf log)))))).
  { rewrite (cached_fetches net sta loc cha id d wf log a (b :: others)
                            Htimes).
    apply in_or_app. right.
    apply (in_map frame_event _
                  (f_t1 a - env_buffer e, f_t0 b + env_buffer e)).
    unfold missing_time_frames. apply in_or_app. right.
    apply in_or_app. left. simpl. left. reflexivity. }
  unfold fetches in Hin. apply filter_In in Hin. tauto.
Qed.

(** X10. [loadGaps] calls the fetch collaborator once per frame, in
    order, and changes nothing else; it raises [NameError] exactly when
    every answer is without trace, and otherwise returns a stream with
    at least one trace. *)
Theorem loadGaps_fetches_each_frame
        (frames : list (Q * Q)) (net sta loc cha : string) (w : world) :
  let run := loadGaps e frames net sta loc cha w in
  snd run = mkWorld (w_dir w) (w_waveforms w)
                    (w_log w ++ map frame_event frames)
  /\ (fst run = Raise NameError
      \/ exists tr rest, fst run = Ok (tr :: rest))
  /\ (fst run = Raise NameError
      <-> forall fr, In fr frames ->
                     seishub_getPreview e net sta loc cha
                                        (Some (fst fr)) (Some (snd fr)) = []).
Proof.
  cbv zeta. rewrite loadGaps_exact. simpl.
  split; [reflexivity |].
  pose proof (gap_streams_nonempty e net sta loc cha frames) as Hne.
  split.
  - destruct (gap_streams e net sta loc cha frames) as [| g gs]; auto.
    right. inversion Hne as [| ? ? Hg _]; subst.
    destruct g as [| tr rest]; [congruence |].
    exists tr, (rest ++ concat gs)%list. reflexivity.
  - split.
    + intros Hraise fr Hfr.
      destruct (gap_streams e net sta loc cha frames) as [| g gs] eqn:Eg;
        [| discriminate].
      clear Hraise Hne. revert Eg Hfr.
      induction frames as [| fr0 frames IH]; simpl; [tauto |].
      destruct (seishub_getPreview e net sta loc cha
                  (Some (fst fr0)) (Some (snd fr0))) eqn:E0;
        [| discriminate].
      intros Eg [<- | Hfr]; [exact E0 | apply IH; assumption].
    + intros Hall. rewrite gap_streams_none by exact Hall. reflexivity.
Qed.

End Requests.

(** ** A repeated request whose bounds are not whole seconds (C2) *)

(** C2. A first request on an empty cache, for a window that begins
    and ends 7 ms past a whole second, returns 301 samples that cover
    the window exactly and pickles them. The name of the file carries
    the bounds as [str] writes them, with twelve significant digits:
    1262304000.01 and 1262304300.01. The same request run again finds
    the file, reads a start later than the window start, and asks the
    fetch collaborator for the frame from the window start to that
    start plus the buffer, whatever the merge would then make of the
    answer; a caller of [getItem] sees the same two fetches. *)
Theorem repeated_get_fetches_again (merge : Stream -> Stream) :
  let C := mkCore merge str12 in
  let first :=
    getWaveform C env_ms "BW" "FUR" blank "EHZ" "BW.FUR..EHZ" (start []) in
  let second :=
    getWaveform C env_ms "BW" "FUR" blank "EHZ" "BW.FUR..EHZ" (snd first) in
  fst first = Ok (Some [ms_trace])
  /\ starttime ms_trace == env_starttime env_ms
  /\ endtime ms_trace == env_endtime env_ms
  /\ w_dir (snd first)
     = [(mkName "EHZ[]" (126230400001 # 100) (126230430001 # 100) true,
         [ms_trace])]
  /\ fetches (w_log (snd second))
     = [EvFetch None None;
        EvFetch (Some (1262304000007 # 1000))
                (Some ((126230400001 # 100) + 1))]
  /\ fetches
       (w_log (snd (getItem C env_ms "BW" "FUR" blank "EHZ"
                      (snd (getItem C env_ms "BW" "FUR" blank "EHZ"
                                    (start []))))))
     = [EvFetch None None;
        EvFetch (Some (1262304000007 # 1000))
                (Some ((126230400001 # 100) + 1))].
Proof.
  cbv zeta.
  set (name := mkName "EHZ[]" (126230400001 # 100) (126230430001 # 100) true).
  assert (Hfirst :
            getWaveform (mkCore merge str12) env_ms "BW" "FUR" blank "EHZ"
                        "BW.FUR..EHZ" (start [])
            = (Ok (Some [ms_trace]),
               mkWorld [(name, [ms_trace])] []
                       [EvFetch None None; EvWrite name]))
    by (vm_compute; reflexivity).
  rewrite Hfirst. cbn [fst snd w_dir].
  split; [reflexivity |].
  split; [vm_compute; reflexivity |].
  split; [vm_compute; reflexivity |].
  split; [reflexivity |].
  split.
  - rewrite (cached_fetches (mkCore merge str12) env_ms
                            "BW" "FUR" blank "EHZ" "BW.FUR..EHZ"
                            [(name, [ms_trace])] [] _ name [])
      by (vm_compute; reflexivity).
    vm_compute. reflexivity.
  - destruct (getItem (mkCore merge str12) env_ms "BW" "FUR" blank "EHZ"
                      (start [])) as [r1 w1] eqn:Eitem.
    destruct (getItem_calls (mkCore merge str12) env_ms
                            "BW" "FUR" blank "EHZ" _ _ _ Hfirst)
      as (r1' & w1' & Hitem & Hdir & Hlog & _).
    rewrite Eitem in Hitem. injection Hitem as <- <-.
    cbn [snd w_dir w_log] in *.
    destruct (getWaveform (mkCore merge str12) env_ms "BW" "FUR" blank "EHZ"
                          (waveform_id "BW" "FUR" blank "EHZ") w1)
      as [r2 w2] eqn:Esecond.
    destruct (getItem_calls (mkCore merge str12) env_ms
                            "BW" "FUR" blank "EHZ" _ _ _ Esecond)
      as (r3 & w3 & Hitem3 & _ & Hlog3 & _).
    rewrite Hitem3. cbn [snd]. rewrite Hlog3.
    replace w2 with (snd (getWaveform (mkCore merge str12) env_ms
                            "BW" "FUR" blank "EHZ"
                            (waveform_id "BW" "FUR" blank "EHZ") w1))
      by (rewrite Esecond; reflexivity).
    destruct w1 as [d1 wf1 log1]. cbn [w_dir w_log] in Hdir, Hlog.
    subst d1 log1.
    rewrite (cached_fetches (mkCore merge str12) env_ms
                            "BW" "FUR" blank "EHZ" _
                            [(name, [ms_trace])] wf1 _ name [])
      by (vm_compute; reflexivity).
    vm_compute. reflexivity.
Qed.

(** ** The dictionary [self.waveforms] *)

Section Dictionary.

Variable C : Core.
Variable e : Env.

Lemma dict_free_ret {A} (a : A) : dict_free (ret a).
Proof. intros w wf. reflexivity. Qed.

Lemma dict_free_raise {A} (x : exn) : dict_free (@raise A x).
Proof. intros w wf. reflexivity. Qed.

Lemma dict_free_emit (ev : event) : dict_free (emit ev).
Proof. intros w wf. reflexivity. Qed.

Lemma dict_free_get_dir : dict_free get_dir.
Proof. intros w wf. reflexivity. Qed.

Lemma dict_free_put_dir (d : directory) : dict_free (put_dir d).
Proof. intros w wf. reflexivity. Qed.

Lemma dict_free_bind {A B} (m : M A) (k : A -> M B) :
  dict_free m -> (forall a, dict_free (k a)) -> dict_free (bind m k).
Proof.
  intros Hm Hk w wf. unfold bind. rewrite (Hm w wf).
  destruct (m w) as [[a | x] w1]; simpl; [| reflexivity].
  rewrite (Hk a w1 wf). destruct (k a w1); reflexivity.
Qed.

Lemma dict_free_for_each {A} (xs : list A) (body : A -> M unit) :
  (forall x, dict_free (body x)) -> dict_free (for_each xs body).
Proof.
  intros Hb. induction xs as [| x xs IH]; simpl.
  - apply dict_free_ret.
  - apply dict_free_bind; [apply Hb | intros _; exact IH].
Qed.

(** One step of a proof that a computation leaves the dictionary out. *)
Ltac dict_free_step :=
  first
    [ apply dict_free_ret
    | apply dict_free_raise
    | apply dict_free_emit
    | apply dict_free_get_dir
    | apply dict_free_put_dir
    | apply dict_free_bind; [| intros ?]
    | apply dict_free_for_each; intros ?
    | match goal with
      | |- dict_free (match ?x with _ => _ end) => destruct x
      | |- dict_free (if ?b then _ else _) => destruct b
      end ].

Lemma dict_free_load_pickle (f : fname) : dict_free (load_pickle f).
Proof. unfold load_pickle. repeat dict_free_step. Qed.

Lemma dict_free_os_remove (f : fname) : dict_free (os_remove f).
Proof. unfold os_remove. repeat dict_free_step. Qed.

Lemma dict_free_dump_pickle (f : fname) (s : Stream) :
  dict_free (dump_pickle f s).
Proof. unfold dump_pickle. repeat dict_free_step. Qed.

Lemma dict_free_fetch (net sta loc cha : string) (t0 t1 : option Q) :
  dict_free (fetch e net sta loc cha t0 t1).
Proof. unfold fetch. repeat dict_free_step. Qed.

Lemma dict_free_getPreview (net sta loc cha : string) (t0 t1 : option Q) :
  dict_free (getPreview C e net sta loc cha t0 t1).
Proof.
  unfold getPreview.
  apply dict_free_bind; [apply dict_free_fetch | intros stream].
  destruct (head_float32 stream); [apply dict_free_ret |].
  destruct (200 <? npts t)%nat; [| apply dict_free_ret].
  apply dict_free_bind; [apply dict_free_dump_pickle | intros _].
  apply dict_free_ret.
Qed.

Lemma dict_free_fetch_frames (net sta loc cha : string)
      (frames : list (Q * Q)) :
  dict_free (fetch_frames e net sta loc cha frames).
Proof.
  induction frames as [| fr frames IH]; simpl; [apply dict_free_ret |].
  apply dict_free_bind; [apply dict_free_fetch | intros temp].
  apply dict_free_bind; [exact IH | intros streams].
  destruct temp; apply dict_free_ret.
Qed.

Lemma dict_free_loadGaps (frames : list (Q * Q))
      (net sta loc cha : string) :
  dict_free (loadGaps e frames net sta loc cha).
Proof.
  unfold loadGaps.
  apply dict_free_bind; [apply dict_free_fetch_frames | intros streams].
  destruct streams; [apply dict_free_raise | apply dict_free_ret].
Qed.

Lemma dict_free_load_all (times : list fname) : dict_free (load_all times).
Proof.
  induction times as [| t times IH]; simpl; [apply dict_free_ret |].
  apply dict_free_bind; [apply dict_free_load_pickle | intros s].
  apply dict_free_bind; [exact IH | intros streams]. apply dict_free_ret.
Qed.

Lemma dict_free_loadFiles (times : list fname) : dict_free (loadFiles times).
Proof.
  unfold loadFiles.
  apply dict_free_bind; [apply dict_free_load_all | intros streams].
  destruct streams; [apply dict_free_raise | apply dict_free_ret].
Qed.

Lemma dict_free_merge_and_pickle (cha loc : string) (times : list fname)
      (stream : Stream) :
  dict_free (merge_and_pickle C cha loc times stream).
Proof.
  unfold merge_and_pickle.
  destruct (Stream_merge C stream) as [| tr rest]; [apply dict_free_raise |].
  destruct (200 <? npts tr)%nat; [| apply dict_free_ret].
  apply dict_free_bind;
    [apply dict_free_for_each; intros f; apply dict_free_os_remove
    | intros _].
  apply dict_free_bind; [apply dict_free_dump_pickle | intros _].
  apply dict_free_ret.
Qed.

(** [getWaveform] neither reads nor writes [self.waveforms]. *)
Lemma dict_free_getWaveform (net sta loc cha id : string) :
  dict_free (getWaveform C e net sta loc cha id).
Proof.
  unfold getWaveform.
  apply dict_free_bind; [apply dict_free_get_dir | intros d]. cbv zeta.
  destruct (List.length (filter (wanted cha loc) (map fst d)) =? 0)%nat;
    [apply dict_free_getPreview |].
  destruct (filter (intersects e) (filter (wanted cha loc) (map fst d)))
    as [| first others]; [apply dict_free_raise |].
  apply dict_free_bind; [apply dict_free_loadFiles | intros stream].
  destruct (missing_time_frames e first (first :: others)) as [| fr frs];
    [apply dict_free_merge_and_pickle |].
  apply dict_free_bind; [apply dict_free_loadGaps | intros gaps].
  destruct (stream ++ gaps)%list.
  - apply dict_free_bind; [apply dict_free_emit | intros _].
    apply dict_free_ret.
  - apply dict_free_merge_and_pickle.
Qed.

(** The read at lines 36 and 37 changes nothing. *)
Lemma getItem_as_written_run (net sta loc cha : string) (w : world) :
  getItem_as_written C e net sta loc cha w = getItem C e net sta loc cha w.
Proof. reflexivity. Qed.

Lemma getItem_with_dict (net sta loc cha : string) (w : world)
      (wf : list (string * entry)) :
  let run1 := getItem C e net sta loc cha w in
  let run2 := getItem C e net sta loc cha (with_dict w wf) in
  fst run2 = fst run1
  /\ w_dir (snd run2) = w_dir (snd run1)
  /\ w_log (snd run2) = w_log (snd run1).
Proof.
  cbv zeta. unfold getItem, bind.
  rewrite (dict_free_getWaveform net sta loc cha
             (waveform_id net sta loc cha) w wf).
  destruct (getWaveform C e net sta loc cha (waveform_id net sta loc cha) w)
    as [[[[| tr rest] |] | x] w1]; cbn [fst snd];
    try (repeat split; fail).
  unfold set_waveform, with_dict. cbn [fst snd w_dir w_log w_waveforms].
  destruct (processStream e (tr :: rest)); repeat split.
Qed.

(** X11. What [self.waveforms] holds has no effect on a call of
    [getItem]: with any other dictionary, in particular one that
    already holds a stream under the id, the call returns the same
    entry or raises the same exception, makes the same calls in the same
    order and leaves the same directory. The stream read at line 37 is
    never used. *)
Theorem getItem_never_uses_the_dictionary
        (net sta loc cha : string) (w : world)
        (wf : list (string * entry)) :
  let run1 := getItem_as_written C e net sta loc cha w in
  let run2 := getItem_as_written C e net sta loc cha (with_dict w wf) in
  fst run2 = fst run1
  /\ w_dir (snd run2) = w_dir (snd run1)
  /\ w_log (snd run2) = w_log (snd run1).
Proof.
  cbv zeta. rewrite !getItem_as_written_run.
  apply getItem_with_dict.
Qed.

Lemma dict_get_set_same (id : string) (v : entry)
      (d : list (string * entry)) :
  dict_get id (dict_set id v d) = Some v.
Proof.
  induction d as [| [k v'] d IH]; simpl.
  - rewrite String.eqb_refl. reflexivity.
  - destruct (String.eqb id k) eqn:E; simpl; rewrite E; [reflexivity | exact IH].
Qed.

Lemma dict_get_set_other (id id' : string) (v : entry)
      (d : list (string * entry)) :
  id' <> id -> dict_get id' (dict_set id v d) = dict_get id' d.
Proof.
  intros Hne. induction d as [| [k v'] d IH]; simpl.
  - destruct (String.eqb id' id) eqn:E; [| reflexivity].
    apply String.eqb_eq in E. contradiction.
  - destruct (String.eqb id k) eqn:E; simpl.
    + apply String.eqb_eq in E. subst k.
      destruct (String.eqb id' id) eqn:E'; [| reflexivity].
      apply String.eqb_eq in E'. contradiction.
    + rewrite IH. reflexivity.
Qed.

Lemma getWaveform_keeps_dictionary (net sta loc cha id : string) (w : world) :
  w_waveforms (snd (getWaveform C e net sta loc cha id w)) = w_waveforms w.
Proof.
  destruct (getWaveform_cases C e net sta loc cha id w)
    as (r & w' & l & Hrun & Hwf & _).
  rewrite Hrun. exact Hwf.
Qed.

(** X12. An entry returned by [getItem] is the one the dictionary then
    holds under the id of the channel, the entries of all other ids are
    as before, and the entry is consistent: it is flagged empty exactly
    when there is no stream or a stream without trace, an empty entry
    has no display stream, and any other entry has the display stream
    [processStream] computed from its stream. *)
Theorem getItem_stores_its_answer
        (net sta loc cha : string) (w w' : world) (v : entry) :
  getItem C e net sta loc cha w = (Ok v, w') ->
  dict_get (waveform_id net sta loc cha) (w_waveforms w') = Some v
  /\ (forall id', id' <> waveform_id net sta loc cha ->
                  dict_get id' (w_waveforms w') = dict_get id' (w_waveforms w))
  /\ (empty v = true <-> org_stream v = None \/ org_stream v = Some [])
  /\ (empty v = true -> minmax_stream v = None)
  /\ (empty v = false ->
      exists s r, org_stream v = Some s
                  /\ processStream e s = Ok r
                  /\ minmax_stream v = Some r).
Proof.
  unfold getItem. unfold bind at 1.
  pose proof (getWaveform_keeps_dictionary net sta loc cha
                (waveform_id net sta loc cha) w) as Hwf.
  destruct (getWaveform C e net sta loc cha (waveform_id net sta loc cha) w)
    as [[[[| tr rest] |] | x] w1]; simpl in Hwf.
  - unfold bind, set_waveform, ret. simpl. intros H. injection H as <- <-.
    simpl. rewrite Hwf. repeat split; auto.
    + apply dict_get_set_same.
    + intros id' Hid. apply dict_get_set_other. exact Hid.
    + discriminate.
  - unfold bind at 1. unfold set_waveform at 1. simpl.
    destruct (processStream e (tr :: rest)) as [r | x] eqn:Ep;
      [| discriminate].
    unfold bind, set_waveform, ret. simpl. intros H. injection H as <- <-.
    simpl. rewrite Hwf. repeat split; try discriminate.
    + apply dict_get_set_same.
    + intros id' Hid. rewrite !dict_get_set_other by exact Hid. reflexivity.
    + intros [H | H]; discriminate.
    + intros _. exists (tr :: rest), r. auto.
  - unfold bind, set_waveform, ret. simpl. intros H. injection H as <- <-.
    simpl. rewrite Hwf. repeat split; auto.
    + apply dict_get_set_same.
    + intros id' Hid. apply dict_get_set_other. exact Hid.
    + discriminate.
  - discriminate.
Qed.

(** X13. When [getItem] raises, either [getWaveform] raised and the
    dictionary is as before, or [getWaveform] had returned a stream with
    a trace and [processStream] raised: the dictionary then holds under
    the id a half-built entry (the stream, not flagged empty, no display
    stream), and whatever [getWaveform] removed or wrote stays so. *)
Theorem getItem_failure_leaves_half_entry
        (net sta loc cha : string) (w w' : world) (x : exn) :
  let id := waveform_id net sta loc cha in
  let run0 := getWaveform C e net sta loc cha id w in
  getItem C e net sta loc cha w = (Raise x, w') ->
  w_dir w' = w_dir (snd run0)
  /\ w_log w' = w_log (snd run0)
  /\ ((fst run0 = Raise x /\ w_waveforms w' = w_waveforms w)
      \/ (exists tr rest,
             fst run0 = Ok (Some (tr :: rest))
             /\ processStream e (tr :: rest) = Raise x
             /\ dict_get id (w_waveforms w')
                = Some (mkEntry (Some (tr :: rest)) false None))).
Proof.
  cbv zeta. unfold getItem. unfold bind at 1.
  pose proof (getWaveform_keeps_dictionary net sta loc cha
                (waveform_id net sta loc cha) w) as Hwf.
  destruct (getWaveform C e net sta loc cha (waveform_id net sta loc cha) w)
    as [[[[| tr rest] |] | x0] w1]; simpl in Hwf |- *.
  - unfold bind, set_waveform, ret. simpl. discriminate.
  - unfold bind at 1. unfold set_waveform at 1. simpl.
    destruct (processStream e (tr :: rest)) as [r | x1] eqn:Ep.
    + unfold bind, set_waveform, ret. simpl. discriminate.
    + unfold raise. intros H. injection H as Hx Hw. subst x w'. simpl.
      split; [reflexivity |]. split; [reflexivity |].
      right. exists tr, rest.
      split; [reflexivity |]. split; [exact Ep |].
      apply dict_get_set_same.
  - unfold bind, set_waveform, ret. simpl. discriminate.
  - intros H. injection H as <- <-. auto.
Qed.

End Dictionary.

(** ** A flat signal on the display *)

Section Display.

Variable e : Env.

(** X16. A flat signal is not shown as zero: when the largest unmasked
    bucket value is zero, the rescaling divides by it, and every
    unmasked bucket comes out as [nan], every masked one as 0. *)
Theorem processStream_flat_signal_is_nan
        (stream : Stream) (r : Reduced) (tr : Trace) (m : Q) :
  processStream e stream = Ok r ->
  Stream_trim (env_starttime e) (env_endtime e) true stream = [tr] ->
  cells_max (bucket_ptp (env_detail e) (data tr)) = Some m ->
  m == 0 ->
  red_data r
  = map (fun c => match c with Some _ => NaN | None => Num 0 end)
        (bucket_ptp (env_detail e) (data tr)).
Proof.
  unfold processStream. intros Hrun Htr Hmax Hm. rewrite Htr in Hrun.
  destruct (env_detail e =? 0)%nat; [discriminate |].
  destruct (List.length (data tr) / env_detail e =? 0)%nat; [discriminate |].
  destruct (truthy (env_log_scale e)); [discriminate |].
  injection Hrun as <-. simpl red_data.
  unfold filled, rescale. rewrite Hmax.
  apply Qeq_bool_iff in Hm. rewrite Hm. rewrite !map_map.
  apply map_ext. intros [v |]; reflexivity.
Qed.

End Display.

(** ** Further properties of the two series operations *)

Lemma cell_eqb_refl (x : option Q) : cell_eqb x x = true.
Proof. destruct x; simpl; [apply Qeq_bool_refl | reflexivity]. Qed.

Lemma cells_eqb_refl (l : list (option Q)) : cells_eqb l l = true.
Proof.
  induction l as [| x l IH]; simpl; [reflexivity |].
  rewrite cell_eqb_refl, IH. reflexivity.
Qed.

Lemma compatible_refl (a : Trace) : compatible a a = true.
Proof.
  apply compatible_iff. repeat split; reflexivity.
Qed.

(** X17. Merging a series with itself gives back that series, with no
    masked sample added ([test_addSameTrace]). *)
Theorem add_same_trace (a : Trace) : add a a = inr a.
Proof.
  unfold add. rewrite compatible_refl.
  assert (He : earlier a a = a)
    by (unfold earlier; destruct (Qle_bool _ _); reflexivity).
  assert (Hl : later a a = a)
    by (unfold later; destruct (Qle_bool _ _); reflexivity).
  rewrite He, Hl.
  assert (Hd : sample_offset a a = 0%nat).
  { unfold sample_offset. rewrite sample_delta_zero by ring. reflexivity. }
  rewrite Hd. unfold merged_cells, classify.
  change (List.length (data a) <? 0)%nat with false. cbv iota.
  destruct (List.length (data a) =? 0)%nat eqn:E0.
  - apply Nat.eqb_eq in E0.
    assert (Hnil : data a = [])
      by (destruct (data a); [reflexivity | discriminate]).
    destruct a; simpl in *. subst. reflexivity.
  - replace (List.length (data a) <? 0 + List.length (data a))%nat with false
      by (symmetry; apply Nat.ltb_ge; lia).
    unfold region. simpl skipn. rewrite firstn_all, cells_eqb_refl.
    destruct a; reflexivity.
Qed.

(** X18. The order of the operands does not matter when the two series
    start at different instants: [a + b] and [b + a] are the same
    outcome (the tests add in both orders). *)
Theorem add_commutes_for_distinct_starts (a b : Trace) :
  ~ starttime a == starttime b ->
  add a b = add b a.
Proof.
  intros Hne. unfold add. rewrite (compatible_sym b a).
  destruct (compatible a b); [| reflexivity].
  assert (Horder : earlier a b = earlier b a /\ later a b = later b a).
  { unfold earlier, later.
    destruct (Qle_bool (starttime a) (starttime b)) eqn:Eab;
      destruct (Qle_bool (starttime b) (starttime a)) eqn:Eba; auto.
    - apply Qle_bool_iff in Eab. apply Qle_bool_iff in Eba.
      exfalso. apply Hne. lra.
    - exfalso.
      destruct (Qlt_le_dec (starttime b) (starttime a)) as [H | H].
      + assert (H' : starttime b <= starttime a) by lra.
        apply Qle_bool_iff in H'. congruence.
      + apply Qle_bool_iff in H. congruence. }
  destruct Horder as [-> ->]. reflexivity.
Qed.

(** X19. A merged series starts with the earlier of the two and has as
    many samples as it takes to reach the later of the two ends: with
    [d] the offset of the later series in the earlier one, its sample
    count is the larger of the earlier count and [d] plus the later
    count, in all four layouts (3000, 1800 and 1001 in
    [test_addTraceWithGap], [test_addTraceWithOverlap] and
    [test_addTraceWithinTrace]). *)
Theorem merged_series_spans_both (a b r : Trace) :
  add a b = inr r ->
  let l := earlier a b in
  let rt := later a b in
  starttime r = starttime l
  /\ npts r = Nat.max (npts l) (sample_offset l rt + npts rt).
Proof.
  intros Hadd l rt. unfold add in Hadd.
  destruct (compatible a b); [| discriminate].
  injection Hadd as <-. fold l rt. split; [reflexivity |].
  unfold npts. simpl data. unfold merged_cells, classify.
  set (d := sample_offset l rt).
  set (nL := List.length (data l)). set (nR := List.length (data rt)).
  destruct (nL <? d)%nat eqn:E1.
  { apply Nat.ltb_lt in E1.
    rewrite !length_app. unfold masked_filler. rewrite repeat_length.
    fold nL nR. lia. }
  apply Nat.ltb_ge in E1.
  destruct (nL =? d)%nat eqn:E2.
  { apply Nat.eqb_eq in E2. rewrite length_app. fold nL nR. lia. }
  apply Nat.eqb_neq in E2.
  destruct (nL <? d + nR)%nat eqn:E3.
  - apply Nat.ltb_lt in E3.
    destruct (cells_eqb _ _);
      rewrite !length_app, length_firstn, length_skipn;
      [rewrite region_length by (fold nL; lia)
      | unfold masked_filler; rewrite repeat_length];
      fold nL nR; lia.
  - apply Nat.ltb_ge in E3.
    destruct (cells_eqb _ _); [fold nL; lia |].
    rewrite !length_app, length_firstn, length_skipn.
    unfold masked_filler. rewrite repeat_length. fold nL nR. lia.
Qed.

Lemma round_away_ge (q : Q) (n : Z) :
  (0 <= n)%Z -> inject_Z n <= q -> (n <= round_away q)%Z.
Proof.
  intros Hn Hq. unfold round_away.
  assert (H0 : 0 <= q).
  { apply Qle_trans with (inject_Z n); [| exact Hq].
    change 0 with (inject_Z 0). rewrite <- Zle_Qle. exact Hn. }
  apply Qle_bool_iff in H0. rewrite H0.
  rewrite <- (Qfloor_Z n). apply Qfloor_resp_le. lra.
Qed.

Lemma snap7_ge (q : Q) (n : Z) :
  (0 <= n)%Z -> inject_Z n <= q -> inject_Z n <= snap7 q.
Proof.
  intros Hn Hq. unfold snap7.
  assert (H : (n * 10000000 <= round_away (q * inject_Z 10000000))%Z).
  { apply round_away_ge; [lia |].
    rewrite inject_Z_mult.
    apply Qmult_le_compat_r; [exact Hq |].
    change 0 with (inject_Z 0). rewrite <- Zle_Qle. lia. }
  rewrite Zle_Qle, inject_Z_mult in H.
  apply Qle_shift_div_l; [reflexivity | exact H].
Qed.

Lemma sample_delta_ge (nearestSample : bool) (q : Q) (n : Z) :
  (0 <= n)%Z -> inject_Z n <= q -> (n <= sample_delta nearestSample q)%Z.
Proof.
  intros Hn Hq. pose proof (snap7_ge q n Hn Hq) as Hs.
  unfold sample_delta. destruct nearestSample.
  - apply round_away_ge; assumption.
  - rewrite <- (Qfloor_Z n). apply Qfloor_resp_le. exact Hs.
Qed.

Lemma rightTrim_of_empty (t : timearg) (nearestSample : bool) (s : Trace) :
  data s = [] ->
  data (rightTrim t nearestSample false s) = []
  /\ data_dtype (rightTrim t nearestSample false s) = data_dtype s.
Proof.
  intros Hs. unfold rightTrim.
  destruct (_ <? 0)%Z; [auto |].
  destruct (_ <=? _)%Z; simpl; [auto |].
  rewrite Hs. rewrite firstn_nil. auto.
Qed.

(** X20. Trimming without padding to a window that begins at or after
    the instant one sample past the last sample leaves no sample and
    does not change the dtype ([test_trimAllDoesNotChangeDtype]). *)
Theorem trim_past_the_end_keeps_dtype
        (s : Trace) (t0 : Q) (t1 : timearg) (nearestSample : bool) :
  inject_Z (Z.of_nat (npts s)) <= (t0 - starttime s) * sampling_rate s ->
  let r := trim (Abs t0) t1 false nearestSample s in
  npts r = 0%nat /\ data_dtype r = data_dtype s.
Proof.
  intros Hpast. cbv zeta.
  assert (Hl : data (leftTrim (Abs t0) nearestSample false s) = []
               /\ data_dtype (leftTrim (Abs t0) nearestSample false s)
                  = data_dtype s).
  { unfold leftTrim.
    pose proof (sample_delta_ge nearestSample _ _
                  (Nat2Z.is_nonneg (npts s)) Hpast) as Hd.
    replace (_ <? 0)%Z with false by (symmetry; apply Z.ltb_ge; lia).
    replace (_ <=? _)%Z with true by (symmetry; apply Z.leb_le; exact Hd).
    simpl. auto. }
  destruct Hl as [Hdata Hdt].
  unfold trim.
  destruct (Qlt_bool _ _).
  - simpl. rewrite Hdt. auto.
  - destruct (rightTrim_of_empty t1 nearestSample _ Hdata) as [H1 H2].
    unfold npts. rewrite H1, H2, Hdt. auto.
Qed.

Lemma round_away_comp (p q : Q) : p == q -> round_away p = round_away q.
Proof.
  intros H. unfold round_away. rewrite H.
  destruct (Qle_bool 0 q); rewrite H; reflexivity.
Qed.

Lemma snap7_comp (p q : Q) : p == q -> snap7 p == snap7 q.
Proof.
  intros H. unfold snap7.
  rewrite (round_away_comp (p * inject_Z 10000000) (q * inject_Z 10000000))
    by (rewrite H; reflexivity).
  reflexivity.
Qed.

Lemma sample_delta_comp (nearestSample : bool) (p q : Q) :
  p == q -> sample_delta nearestSample p = sample_delta nearestSample q.
Proof.
  intros H. apply snap7_comp in H. unfold sample_delta.
  destruct nearestSample; [apply round_away_comp; exact H |].
  rewrite H. reflexivity.
Qed.

Lemma round_away_int (z : Z) : (0 <= z)%Z -> round_away (inject_Z z) = z.
Proof.
  intros Hz. unfold round_away.
  assert (H0 : Qle_bool 0 (inject_Z z) = true).
  { apply Qle_bool_iff. change 0 with (inject_Z 0).
    rewrite <- Zle_Qle. exact Hz. }
  rewrite H0. unfold Qfloor, Qplus, inject_Z. simpl.
  symmetry. apply Z.div_unique with (r := 1%Z); lia.
Qed.

Lemma sample_delta_int (nearestSample : bool) (k : Z) :
  (0 <= k)%Z -> sample_delta nearestSample (inject_Z k) = k.
Proof.
  intros Hk.
  assert (Hs : snap7 (inject_Z k) == inject_Z k).
  { unfold snap7. rewrite <- inject_Z_mult, round_away_int by lia.
    rewrite inject_Z_mult. field. }
  unfold sample_delta. destruct nearestSample.
  - rewrite (round_away_comp _ _ Hs). apply round_away_int. exact Hk.
  - rewrite Hs. apply Qfloor_Z.
Qed.

Lemma endtime_of_nonempty (s : Trace) :
  (0 < npts s)%nat ->
  endtime s
  == starttime s + (inject_Z (Z.of_nat (npts s)) - 1) / sampling_rate s.
Proof.
  intros Hn. unfold endtime. destruct (npts s) as [| n]; [lia |].
  rewrite Nat2Z.inj_succ. unfold Z.succ. rewrite inject_Z_plus.
  unfold Qdiv. change (inject_Z 1) with 1. ring.
Qed.

(** X21. Cutting [k] sample intervals off the left of a valid series,
    [k] smaller than the sample count, drops exactly the first [k]
    samples, moves the start by the offset and leaves the end where it
    was, whether the offset is rounded to the nearest sample or floored
    ([test_ltrim]: 0.5 s at 200 Hz drops 100 samples). *)
Theorem leftTrim_drops_whole_samples
        (s : Trace) (k : nat) (d : Q) (nearestSample pad : bool) :
  valid s ->
  (k < npts s)%nat ->
  d * sampling_rate s == inject_Z (Z.of_nat k) ->
  let r := leftTrim (Rel d) nearestSample pad s in
  data r = skipn k (data s)
  /\ starttime r == starttime s + d
  /\ endtime r == endtime s.
Proof.
  intros Hv Hk Hd. cbv zeta. unfold valid in Hv.
  assert (Hdelta : sample_delta nearestSample
                     ((starttime s + d - starttime s) * sampling_rate s)
                   = Z.of_nat k).
  { rewrite (sample_delta_comp nearestSample _ (inject_Z (Z.of_nat k)))
      by (rewrite <- Hd; ring).
    apply sample_delta_int. lia. }
  assert (Hstart : starttime s + inject_Z (Z.of_nat k) / sampling_rate s
                   == starttime s + d).
  { rewrite <- Hd. field. lra. }
  assert (Hr : leftTrim (Rel d) nearestSample pad s
               = set_data s
                   (starttime s + inject_Z (Z.of_nat k) / sampling_rate s)
                   (skipn k (data s))).
  { unfold leftTrim. rewrite Hdelta.
    replace (Z.of_nat k <? 0)%Z with false by (symmetry; apply Z.ltb_ge; lia).
    replace (Z.of_nat (npts s) <=? Z.of_nat k)%Z with false
      by (symmetry; apply Z.leb_gt; lia).
    rewrite Nat2Z.id. reflexivity. }
  rewrite Hr. split; [reflexivity |]. split; [exact Hstart |].
  assert (Hn : npts (set_data s
                      (starttime s + inject_Z (Z.of_nat k) / sampling_rate s)
                      (skipn k (data s))) = (npts s - k)%nat).
  { unfold npts. simpl. apply length_skipn. }
  rewrite (endtime_of_nonempty _ ltac:(rewrite Hn; lia)).
  rewrite (endtime_of_nonempty s ltac:(lia)).
  rewrite Hn. simpl starttime. simpl sampling_rate.
  rewrite Nat2Z.inj_sub by lia.
  unfold Z.sub. rewrite inject_Z_plus, inject_Z_opp.
  field. lra.
Qed.

(** X22. Cutting [k] sample intervals off the right of a valid series,
    [k] smaller than the sample count, drops exactly the last [k]
    samples, leaves the start where it was and moves the end back by the
    offset ([test_rtrim]: 0.5 s at 200 Hz leaves the first 900 of 1000
    samples). *)
Theorem rightTrim_drops_whole_samples
        (s : Trace) (k : nat) (d : Q) (nearestSample pad : bool) :
  valid s ->
  (k < npts s)%nat ->
  d * sampling_rate s == inject_Z (Z.of_nat k) ->
  let r := rightTrim (Rel d) nearestSample pad s in
  data r = firstn (npts s - k) (data s)
  /\ starttime r = starttime s
  /\ endtime r == endtime s - d.
Proof.
  intros Hv Hk Hd. cbv zeta. unfold valid in Hv.
  assert (Hdelta : sample_delta nearestSample
                     ((endtime s - (endtime s - d)) * sampling_rate s)
                   = Z.of_nat k).
  { rewrite (sample_delta_comp nearestSample _ (inject_Z (Z.of_nat k)))
      by (rewrite <- Hd; ring).
    apply sample_delta_int. lia. }
  assert (Hr : rightTrim (Rel d) nearestSample pad s
               = set_data s (starttime s) (firstn (npts s - k) (data s))).
  { unfold rightTrim. rewrite Hdelta.
    replace (Z.of_nat k <? 0)%Z with false by (symmetry; apply Z.ltb_ge; lia).
    replace (Z.of_nat (npts s) <=? Z.of_nat k)%Z with false
      by (symmetry; apply Z.leb_gt; lia).
    rewrite Nat2Z.id. reflexivity. }
  rewrite Hr. split; [reflexivity |]. split; [reflexivity |].
  assert (Hn : npts (set_data s (starttime s)
                              (firstn (npts s - k) (data s)))
               = (npts s - k)%nat).
  { unfold npts. simpl. rewrite length_firstn. lia. }
  rewrite (endtime_of_nonempty _ ltac:(rewrite Hn; lia)).
  rewrite (endtime_of_nonempty s ltac:(lia)).
  rewrite Hn. simpl starttime. simpl sampling_rate.
  rewrite Nat2Z.inj_sub by lia.
  unfold Z.sub. rewrite inject_Z_plus, inject_Z_opp, <- Hd.
  field. lra.
Qed.

(** ** Instances of the further properties *)

(** The fully cached request keeps the one name unique. *)
Lemma names_stay_unique_witness :
  NoDup (map fst (w_dir (snd (getWaveform core0 env_full "BW" "FUR" blank
                                          "EHZ" "BW.FUR..EHZ"
                                          (start dir_full))))).
Proof.
  apply (names_stay_unique core0 env_full "BW" "FUR" blank "EHZ"
                           "BW.FUR..EHZ" (start dir_full)).
  simpl. constructor; [simpl; tauto | constructor].
Defined.

(** After the fully cached request the descriptor [0, 300] is alone. *)
Lemma compaction_leaves_one_descriptor_witness :
  filter (intersects env_full)
         (filter (wanted "EHZ" blank)
                 (map as_listed
                      (map fst (w_dir (snd (getWaveform core0 env_full
                                              "BW" "FUR" blank "EHZ"
                                              "BW.FUR..EHZ"
                                              (start dir_full)))))))
  = if intersects env_full (cache_name core0 "EHZ" blank (ehz 0 (zeros 301)))
    then [cache_name core0 "EHZ" blank (ehz 0 (zeros 301))] else [].
Proof.
  apply (compaction_leaves_one_descriptor core0 env_full "BW" "FUR" blank
           "EHZ" "BW.FUR..EHZ" (start dir_full) (ehz 0 (zeros 301)) []).
  - reflexivity.
  - constructor; [reflexivity | constructor].
  - vm_compute. reflexivity.
  - apply Nat.ltb_lt. vm_compute. reflexivity.
Defined.

(** Two descriptors, [0, 100] and [101, 300], and the window [0, 300]:
    the one frame (99, 102) is fetched. *)
Lemma one_fetch_per_missing_frame_witness :
  fetches (w_log (snd (getWaveform core0 env_two "BW" "FUR" blank "EHZ"
                                   "BW.FUR..EHZ" (start dir_two))))
  = [EvFetch (Some (100 - 1)) (Some (101 + 1))].
Proof.
  apply (one_fetch_per_missing_frame core0 env_two "BW" "FUR" blank "EHZ"
           "BW.FUR..EHZ" (start dir_two)
           (mkName "EHZ[]" 0 100 true) [mkName "EHZ[]" 101 300 true]).
  vm_compute. reflexivity.
Defined.

(** An empty directory: one fetch without bounds. *)
Lemma uncached_request_fetches_unbounded_witness :
  fetches (w_log (snd (getWaveform core0 env_first "BW" "FUR" blank "EHZ"
                                   "BW.FUR..EHZ" (start []))))
  = [EvFetch None None].
Proof.
  destruct (uncached_request_fetches_unbounded core0 env_first "BW" "FUR"
              blank "EHZ" "BW.FUR..EHZ" (start [])) as [H _].
  - reflexivity.
  - exact H.
Defined.

(** The descriptor [0, 300] holds 301 samples, the window is [0, 400]
    and nothing is fetched for (299, 400): the cached samples are not
    returned. *)
Lemma unanswered_gaps_raise_NameError_witness :
  getWaveform core0 env_partial "BW" "FUR" blank "EHZ" "BW.FUR..EHZ"
              (start dir_full)
  = (Raise NameError,
     mkWorld dir_full []
             [EvLoad (mkName "EHZ[]" 0 300 true);
              EvFetch (Some (300 - 1)) (Some 400)]).
Proof.
  apply (unanswered_gaps_raise_NameError core0 env_partial "BW" "FUR" blank
           "EHZ" "BW.FUR..EHZ" (start dir_full)
           (mkName "EHZ[]" 0 300 true) []).
  - vm_compute. reflexivity.
  - vm_compute. discriminate.
  - intros fr Hfr. reflexivity.
Defined.

Lemma two_descriptors_always_fetch_witness :
  In (EvFetch (Some (100 - 1)) (Some (101 + 1)))
     (w_log (snd (getWaveform core0 env_two "BW" "FUR" blank "EHZ"
                              "BW.FUR..EHZ" (start dir_two)))).
Proof.
  apply (two_descriptors_always_fetch core0 env_two "BW" "FUR" blank "EHZ"
           "BW.FUR..EHZ" (start dir_two)
           (mkName "EHZ[]" 0 100 true) (mkName "EHZ[]" 101 300 true) []).
  vm_compute. reflexivity.
Defined.

(** Three samples fetched for the window [0, 2] and three pixels. *)
Lemma getItem_stores_its_answer_witness :
  dict_get "BW.FUR..EHZ"
           (w_waveforms (snd (getItem core0 env_short "BW" "FUR" blank "EHZ"
                                      (start []))))
  = Some (mkEntry (Some [ehz 0 (zeros 3)]) false
                  (Some (mkReduced (ehz 0 (zeros 3)) [NaN; NaN; NaN]))).
Proof.
  destruct (getItem_stores_its_answer core0 env_short "BW" "FUR" blank "EHZ"
              (start [])
              (snd (getItem core0 env_short "BW" "FUR" blank "EHZ" (start [])))
              (mkEntry (Some [ehz 0 (zeros 3)]) false
                       (Some (mkReduced (ehz 0 (zeros 3)) [NaN; NaN; NaN]))))
    as [H _].
  - vm_compute. reflexivity.
  - exact H.
Defined.

(** The same request with a logarithmic base: [getItem] raises and the
    half-built entry stays. *)
Lemma getItem_failure_leaves_half_entry_witness :
  w_log (snd (getItem core0 env_short_log "BW" "FUR" blank "EHZ" (start [])))
  = w_log (snd (getWaveform core0 env_short_log "BW" "FUR" blank "EHZ"
                            (waveform_id "BW" "FUR" blank "EHZ") (start []))).
Proof.
  destruct (getItem_failure_leaves_half_entry core0 env_short_log
              "BW" "FUR" blank "EHZ" (start [])
              (snd (getItem core0 env_short_log "BW" "FUR" blank "EHZ"
                            (start [])))
              AttributeError)
    as (_ & H & _).
  - vm_compute. reflexivity.
  - exact H.
Defined.

(** Three equal samples on three pixels: three [nan]. *)
Lemma processStream_flat_signal_is_nan_witness :
  [NaN; NaN; NaN]
  = map (fun c : option Q => match c with Some _ => NaN | None => Num 0 end)
        (bucket_ptp 3 (zeros 3)).
Proof.
  apply (processStream_flat_signal_is_nan env_short [ehz 0 (zeros 3)]
           (mkReduced (ehz 0 (zeros 3)) [NaN; NaN; NaN])
           (ehz 0 (zeros 3)) (0 - 0)).
  - vm_compute. reflexivity.
  - vm_compute. reflexivity.
  - vm_compute. reflexivity.
  - reflexivity.
Defined.

Lemma add_commutes_for_distinct_starts_witness :
  add (series 0 Float64 (zeros 7)) (series 5 Float64 (ones 7))
  = add (series 5 Float64 (ones 7)) (series 0 Float64 (zeros 7)).
Proof.
  apply add_commutes_for_distinct_starts.
  intros H. vm_compute in H. discriminate.
Defined.

Lemma merged_series_spans_both_witness :
  npts (series 0 Float64 (zeros 5 ++ masked_filler 2 ++ ones 5)) = 12%nat.
Proof.
  destruct (merged_series_spans_both
              (series 0 Float64 (zeros 7)) (series 5 Float64 (ones 7))
              (series 0 Float64 (zeros 5 ++ masked_filler 2 ++ ones 5)))
    as [_ H].
  - vm_compute. reflexivity.
  - rewrite H. vm_compute. reflexivity.
Defined.

(** [test_trimAllDoesNotChangeDtype]: a hundred int16 samples from 0,
    trimmed to [10000, 20000]. *)
Lemma trim_past_the_end_keeps_dtype_witness :
  npts (trim (Abs 10000) (Abs 20000) false true
             (series 0 Int16 (zeros 100))) = 0%nat
  /\ data_dtype (trim (Abs 10000) (Abs 20000) false true
                      (series 0 Int16 (zeros 100))) = Int16.
Proof.
  apply (trim_past_the_end_keeps_dtype (series 0 Int16 (zeros 100))
                                       10000 (Abs 20000) true).
  vm_compute. discriminate.
Defined.

Lemma leftTrim_drops_whole_samples_witness :
  data (leftTrim (Rel 2) true false
                 (series 0 Int64 (cells_of [0; 1; 2; 3; 4]%Z)))
  = cells_of [2; 3; 4]%Z.
Proof.
  destruct (leftTrim_drops_whole_samples
              (series 0 Int64 (cells_of [0; 1; 2; 3; 4]%Z)) 2 2 true false)
    as [H _].
  - unfold valid. simpl. lra.
  - apply Nat.ltb_lt. vm_compute. reflexivity.
  - reflexivity.
  - exact H.
Defined.

Lemma rightTrim_drops_whole_samples_witness :
  data (rightTrim (Rel 2) true false
                  (series 0 Int64 (cells_of [0; 1; 2; 3; 4]%Z)))
  = cells_of [0; 1; 2]%Z.
Proof.
  destruct (rightTrim_drops_whole_samples
              (series 0 Int64 (cells_of [0; 1; 2; 3; 4]%Z)) 2 2 true false)
    as [H _].
  - unfold valid. simpl. lra.
  - apply Nat.ltb_lt. vm_compute. reflexivity.
  - reflexivity.
  - exact H.
Defined.
